(** * VulkanHelper: the device / surface capability selectors

    A shallow embedding of the selection helpers of [VulkanTools.hpp]
    (namespace [Vulkan::Tools]) together with the few wrappers of
    [Vulkan.hpp] and macros of [Core.hpp] they call, followed by the
    properties of these functions.

    Conventions of the embedding
    - a [uint32] is a [Z]; every operation of the source that can wrap is
      written with its reduction modulo [2^32];
    - a Vulkan handle is a [Z], [VK_NULL_HANDLE] is [0];
    - what the driver answers for a handle (limits, queue families,
      extension names, surface queries) is carried by the record that
      stands for the handle;
    - [ASSERT] leaves the process through [exit(-1)]: a computation ends in
      [Abort] with the message of the failed assertion;
    - reading a variable that was never assigned, or indexing a vector out
      of its bounds, ends in [UndefinedRead];
    - a read through a pointer into storage that was freed gives what the
      storage holds at that time: the strings read back through the
      pointers that the name enumerators return are carried, as [mem_]
      fields, by the record that stands for the handle or the host, beside
      the names the driver wrote ([drv_] fields);
    - the address of an automatic array that a function hands to its
      caller is a pointer with no contents. *)

From Stdlib Require Import ZArith List String Bool Lia Permutation.
Import ListNotations.
Open Scope Z_scope.

(** ** Core.hpp *)

Module Core.

Definition UINT32_MAX : Z := 4294967295.

(** [static_cast<uint32>] and the result of unsigned 32-bit arithmetic. *)
Definition uint32 (z : Z) : Z := z mod 2 ^ 32.

(** Conversion of a 32-bit unsigned value to [int]. *)
Definition to_int (z : Z) : Z := (z + 2 ^ 31) mod 2 ^ 32 - 2 ^ 31.

Definition add32 (a b : Z) : Z := uint32 (a + b).
Definition mul32 (a b : Z) : Z := uint32 (a * b).

(** Result of running a function of the library. *)
Inductive Outcome (A : Type) : Type :=
| Ret (a : A)
| Abort (msg : string)
| UndefinedRead.

Arguments Ret {A} a.
Arguments Abort {A} msg.
Arguments UndefinedRead {A}.

Definition bind {A B : Type} (c : Outcome A) (k : A -> Outcome B) : Outcome B :=
  match c with
  | Ret a => k a
  | Abort msg => Abort msg
  | UndefinedRead => UndefinedRead
  end.

(** [#define ASSERT(b, ...) if(!(b)){ printf(...); exit(-1); }] *)
Definition ASSERT (b : bool) (msg : string) : Outcome unit :=
  if b then Ret tt else Abort msg.

End Core.

Import Core.

Declare Scope outcome_scope.
Delimit Scope outcome_scope with outcome.
Notation "x <- c ;; k" := (bind c (fun x => k))
  (at level 61, c at next level, right associativity) : outcome_scope.
Notation "c ;;; k" := (bind c (fun _ => k))
  (at level 61, right associativity) : outcome_scope.
Open Scope outcome_scope.

(** ** The part of the Vulkan and SDL interfaces the selectors use *)

Module Vk.

Definition VkBool32 := Z.
Definition VK_TRUE : VkBool32 := 1.
Definition VK_FALSE : VkBool32 := 0.

Definition VK_NULL_HANDLE : Z := 0.

(** [VkQueueFlagBits] *)
Definition VK_QUEUE_GRAPHICS_BIT : Z := 1.
Definition VK_QUEUE_COMPUTE_BIT : Z := 2.
Definition VK_QUEUE_TRANSFER_BIT : Z := 4.

(** [VkPresentModeKHR] *)
Definition VK_PRESENT_MODE_IMMEDIATE_KHR : Z := 0.
Definition VK_PRESENT_MODE_MAILBOX_KHR : Z := 1.
Definition VK_PRESENT_MODE_FIFO_KHR : Z := 2.
Definition VK_PRESENT_MODE_FIFO_RELAXED_KHR : Z := 3.

(** [VkFormat] and [VkColorSpaceKHR] *)
Definition VK_FORMAT_R8G8B8A8_UNORM : Z := 37.
Definition VK_FORMAT_R8G8B8A8_SRGB : Z := 43.
Definition VK_FORMAT_B8G8R8A8_UNORM : Z := 44.
Definition VK_FORMAT_B8G8R8A8_SRGB : Z := 50.
Definition VK_COLOR_SPACE_SRGB_NONLINEAR_KHR : Z := 0.
Definition VK_COLOR_SPACE_EXTENDED_SRGB_LINEAR_EXT : Z := 1000104002.

Definition VK_KHR_SWAPCHAIN_EXTENSION_NAME : string := "VK_KHR_swapchain".

Record VkExtent2D := { width : Z; height : Z }.

Record VkSurfaceFormatKHR := { format : Z; colorSpace : Z }.

Record VkSurfaceCapabilitiesKHR := {
  currentExtent : VkExtent2D;
  minImageExtent : VkExtent2D;
  maxImageExtent : VkExtent2D
}.

Record VkQueueFamilyProperties := { queueFlags : Z }.

Record VkPhysicalDeviceLimits := {
  maxColorAttachments : Z;
  maxDescriptorSetInputAttachments : Z;
  maxImageDimension2D : Z;
  maxImageArrayLayers : Z;
  maxViewports : Z
}.

Record VkPhysicalDeviceProperties := { limits : VkPhysicalDeviceLimits }.
Record VkPhysicalDeviceMemoryProperties := { memoryHeapCount : Z }.
Record VkPhysicalDeviceFeatures := { multiViewport : VkBool32 }.

Definition VkSurfaceKHR := Z.

(** A physical device handle with what the driver reports for it.
    [drv_surfaceSupport surface i] is the value stored by
    [vkGetPhysicalDeviceSurfaceSupportKHR] for queue family [i]; the two
    counts are those stored by [vkGetPhysicalDeviceSurfacePresentModesKHR]
    and [vkGetPhysicalDeviceSurfaceFormatsKHR]. [drv_extensionNames] are
    the names the driver writes for [vkEnumerateDeviceExtensionProperties];
    [mem_extensionNames] are the strings read back, one for each of these
    names, through the pointers that [EnumerateDeviceExtensionNames]
    returns, which point into a vector destroyed when it returns. *)
Record VkPhysicalDevice := {
  handle : Z;
  drv_properties : VkPhysicalDeviceProperties;
  drv_memoryProperties : VkPhysicalDeviceMemoryProperties;
  drv_features : VkPhysicalDeviceFeatures;
  drv_queueFamilies : list VkQueueFamilyProperties;
  drv_extensionNames : list string;
  mem_extensionNames : list string;
  drv_surfaceSupport : VkSurfaceKHR -> Z -> VkBool32;
  drv_presentModeCount : VkSurfaceKHR -> Z;
  drv_formatCount : VkSurfaceKHR -> Z
}.

(** An instance handle with the devices [vkEnumeratePhysicalDevices]
    lists for it. *)
Record VkInstance := {
  instance_handle : Z;
  drv_physicalDevices : list VkPhysicalDevice
}.

(** What [SDL_GetWindowSize] stores for a window: two [int]. *)
Record SDL_Window := { window_w : Z; window_h : Z }.

End Vk.

Import Vk.

(** ** Vulkan.hpp: the wrappers called by the selectors *)

Module Vulkan.

Definition CheckValidHandle (h : Z) : bool := negb (h =? VK_NULL_HANDLE).

Definition EnumeratePhysicalDevices (instance : VkInstance)
  : Outcome (list VkPhysicalDevice) :=
  ASSERT (CheckValidHandle (instance_handle instance))
         "\tInvalid Vulkan instnace handle\n" ;;;
  let count := Z.of_nat (List.length (drv_physicalDevices instance)) in
  ASSERT (0 <? count) "\tNo Vulkan capable Physical Devices found on host\t" ;;;
  Ret (drv_physicalDevices instance).

Definition GetPhysicalDeviceProperties (physicalDevice : VkPhysicalDevice)
  : Outcome VkPhysicalDeviceProperties :=
  ASSERT (CheckValidHandle (handle physicalDevice))
         "\tInvalid Physical Device given\n" ;;;
  Ret (drv_properties physicalDevice).

Definition GetPhysicalDeviceMemoryProperties (physicalDevice : VkPhysicalDevice)
  : Outcome VkPhysicalDeviceMemoryProperties :=
  ASSERT (CheckValidHandle (handle physicalDevice))
         "\tInvalid Physical Device given\n" ;;;
  Ret (drv_memoryProperties physicalDevice).

Definition GetPhysicalDeviceFeatures (physicalDevice : VkPhysicalDevice)
  : Outcome VkPhysicalDeviceFeatures :=
  ASSERT (CheckValidHandle (handle physicalDevice))
         "\tInvalid Physical Device given\n" ;;;
  Ret (drv_features physicalDevice).

(** [extensionNames[i] = extensions[i].extensionName]: the pointers returned
    point into the local vector [extensions], destroyed at the [return].
    The names that a caller compares are what that freed storage holds
    when the caller reads it. *)
Definition EnumerateDeviceExtensionNames (physicalDevice : VkPhysicalDevice)
  : Outcome (list string) :=
  ASSERT (CheckValidHandle (handle physicalDevice))
         "\tInvalid Physical Device handle given\n" ;;;
  Ret (mem_extensionNames physicalDevice).

Definition GetPhysicalDeviceQueueFamilyProperties (physicalDevice : VkPhysicalDevice)
  : Outcome (list VkQueueFamilyProperties) :=
  ASSERT (CheckValidHandle (handle physicalDevice))
         "\tInvalid Physical Device handle given\n" ;;;
  Ret (drv_queueFamilies physicalDevice).

End Vulkan.

Import Vulkan.

(** ** VulkanTools.hpp *)

Module Tools.

(** *** RatePhysicalDevice *)

(** The loop over the queue families that rewards graphics and compute
    support ([for(const auto& queue : queues)], first loop). *)
Fixpoint queue_scan (queues : list VkQueueFamilyProperties) (score : Z) : Z :=
  match queues with
  | [] => score
  | queue :: rest =>
      let score :=
        if negb (Z.land (queueFlags queue) VK_QUEUE_GRAPHICS_BIT =? 0)
        then add32 score 100000 else score in
      let score :=
        if negb (Z.land (queueFlags queue) VK_QUEUE_COMPUTE_BIT =? 0)
        then add32 score 50000 else score in
      queue_scan rest score
  end.

(** The loop that looks for a family able to present to the surface.
    [i] is the [uint] counter, [presentationSupported] the flag, [None]
    as long as nothing was stored in it ([VkBool32 presentationSupported;]
    has no initializer). Each turn stores the answer of
    [vkGetPhysicalDeviceSurfaceSupportKHR] for family [i] in the flag and
    either leaves the loop or increments [i]. *)
Fixpoint presentation_scan (support : Z -> VkBool32)
         (queues : list VkQueueFamilyProperties)
         (i : Z) (presentationSupported : option VkBool32)
  : Z * option VkBool32 :=
  match queues with
  | [] => (i, presentationSupported)
  | _ :: rest =>
      let presentationSupported := support i in
      if negb (presentationSupported =? 0)
      then (i, Some presentationSupported)
      else presentation_scan support rest (uint32 (i + 1))
                             (Some presentationSupported)
  end.

(** [i+1 == queues.size() && !presentationSupported]: the right operand
    is evaluated, and the flag read, only when the left one holds. *)
Definition presentation_check (i : Z) (size : Z)
           (presentationSupported : option VkBool32) : Outcome bool :=
  if uint32 (i + 1) =? size then
    match presentationSupported with
    | None => UndefinedRead
    | Some b => Ret (b =? 0)
    end
  else Ret false.

(** The loop over the extension names; [strcmp(..) == 0] is equality of
    the two strings. *)
Fixpoint swapchain_scan (extensions : list string)
         (swapchainExtensionAvailable : bool) : bool :=
  match extensions with
  | [] => swapchainExtensionAvailable
  | extension :: rest =>
      swapchain_scan rest
        (if String.eqb extension VK_KHR_SWAPCHAIN_EXTENSION_NAME
         then true else swapchainExtensionAvailable)
  end.

(** The block run when a surface was given: the loop, the test after it
    and the two assignments to [score]. *)
Definition presentation_block (support : Z -> VkBool32)
           (queues : list VkQueueFamilyProperties) (score : Z) : Outcome Z :=
  let '(i, presentationSupported) := presentation_scan support queues 0 None in
  unsupported <-
    presentation_check i (Z.of_nat (List.length queues)) presentationSupported ;;
  if unsupported : bool then Ret 0 else Ret (add32 score 110000).

Definition RatePhysicalDevice (physicalDevice : VkPhysicalDevice)
           (surface : VkSurfaceKHR) : Outcome Z :=
  ASSERT (CheckValidHandle (handle physicalDevice))
         "\tInvalid Physical Device handle passed" ;;;
  let score := 0 in
  properties <- GetPhysicalDeviceProperties physicalDevice ;;
  memoryProperties <- GetPhysicalDeviceMemoryProperties physicalDevice ;;
  features <- GetPhysicalDeviceFeatures physicalDevice ;;
  let score := add32 score (mul32 (maxColorAttachments (limits properties)) 100) in
  let score := add32 score (mul32 (maxDescriptorSetInputAttachments (limits properties)) 100) in
  let score := add32 score (mul32 (maxImageDimension2D (limits properties)) 1000) in
  let score := add32 score (mul32 (maxImageArrayLayers (limits properties)) 10) in
  let score := add32 score (mul32 (maxViewports (limits properties)) 500) in
  let score := add32 score (mul32 (memoryHeapCount memoryProperties) 1000) in
  let score :=
    if multiViewport features =? VK_TRUE then add32 score 500 else score in
  queues <- GetPhysicalDeviceQueueFamilyProperties physicalDevice ;;
  let score := queue_scan queues score in
  score <-
    (if negb (surface =? VK_NULL_HANDLE) then
       presentation_block (drv_surfaceSupport physicalDevice surface)
                          queues score
     else Ret score) ;;
  extensions <- EnumerateDeviceExtensionNames physicalDevice ;;
  let swapchainExtensionAvailable := swapchain_scan extensions false in
  let score := if negb swapchainExtensionAvailable then 0 else score in
  let score :=
    if negb (surface =? VK_NULL_HANDLE) then
      let score :=
        if drv_presentModeCount physicalDevice surface =? 0 then 0 else score in
      let score :=
        if drv_formatCount physicalDevice surface =? 0 then 0 else score in
      score
    else score in
  Ret score.

(** *** SelectBestPhysicalDevice *)

(** The loop over the devices: the running best [score] and the selected
    device, [None] as long as nothing was assigned to
    [selectedPhysicalDevice]. *)
Fixpoint select_scan (surface : VkSurfaceKHR)
         (physicalDeviceList : list VkPhysicalDevice)
         (score : Z) (selectedPhysicalDevice : option VkPhysicalDevice)
  : Outcome (Z * option VkPhysicalDevice) :=
  match physicalDeviceList with
  | [] => Ret (score, selectedPhysicalDevice)
  | physicalDevice :: rest =>
      newScore <- RatePhysicalDevice physicalDevice surface ;;
      if score <? newScore
      then select_scan surface rest newScore (Some physicalDevice)
      else select_scan surface rest score selectedPhysicalDevice
  end.

Definition SelectBestPhysicalDevice (instance : VkInstance)
           (surface : VkSurfaceKHR) : Outcome VkPhysicalDevice :=
  ASSERT (CheckValidHandle (instance_handle instance)) "\t" ;;;
  physicalDeviceList <- EnumeratePhysicalDevices instance ;;
  r <- select_scan surface physicalDeviceList 0 None ;;
  let '(score, selectedPhysicalDevice) := r in
  ASSERT (negb (score =? 0)) "No suitable Physical Device found on host\n" ;;;
  match selectedPhysicalDevice with
  | None => UndefinedRead
  | Some selected =>
      GetPhysicalDeviceProperties selected ;;;
      Ret selected
  end.

(** *** SelectSwapchainSurfacePresentMode *)

Fixpoint SelectSwapchainSurfacePresentMode (presentModes : list Z) : Z :=
  match presentModes with
  | [] => VK_PRESENT_MODE_FIFO_KHR
  | mode :: rest =>
      if mode =? VK_PRESENT_MODE_MAILBOX_KHR then mode
      else SelectSwapchainSurfacePresentMode rest
  end.

(** *** SelectSwapchainSurfaceFormat *)

Fixpoint format_scan (formats : list VkSurfaceFormatKHR)
  : option VkSurfaceFormatKHR :=
  match formats with
  | [] => None
  | format :: rest =>
      if (Vk.format format =? VK_FORMAT_B8G8R8A8_SRGB)
         && (colorSpace format =? VK_COLOR_SPACE_SRGB_NONLINEAR_KHR)
      then Some format
      else format_scan rest
  end.

(** [formats[0]] of an empty vector is a read out of bounds. *)
Definition SelectSwapchainSurfaceFormat (formats : list VkSurfaceFormatKHR)
  : Outcome VkSurfaceFormatKHR :=
  match format_scan formats with
  | Some format => Ret format
  | None =>
      match formats with
      | [] => UndefinedRead
      | first :: _ => Ret first
      end
  end.

(** *** SelectSwapchainSurfaceImageExtent *)

Definition SelectSwapchainSurfaceImageExtent (window : SDL_Window)
           (capabilities : VkSurfaceCapabilitiesKHR) : VkExtent2D :=
  if negb (width (currentExtent capabilities) =? UINT32_MAX) then
    currentExtent capabilities
  else
    let w := window_w window in
    let h := window_h window in
    let extent := {| width := uint32 w; height := uint32 h |} in
    let extent :=
      {| width := Z.max (width (minImageExtent capabilities))
                        (Z.min (width (maxImageExtent capabilities))
                               (width extent));
         height := height extent |} in
    let extent :=
      {| width := width extent;
         height := Z.max (height (minImageExtent capabilities))
                         (Z.min (height (maxImageExtent capabilities))
                                (height extent)) |} in
    extent.

(** *** GetPhysicalDeviceQueueFamilyIndex *)

(** [for(uint32 i = 0; i<queueFamilyProperties.size(); i++)]: the families
    from position [i] on, with the [int] result so far. *)
Fixpoint queue_index_scan (queueFamilyProperties : list VkQueueFamilyProperties)
         (flag : Z) (i : Z) (queueIdx : Z) : Z :=
  match queueFamilyProperties with
  | [] => queueIdx
  | family :: rest =>
      let queueIdx :=
        if negb (Z.land (queueFlags family) flag =? 0)
        then to_int i else queueIdx in
      queue_index_scan rest flag (uint32 (i + 1)) queueIdx
  end.

Definition GetPhysicalDeviceQueueFamilyIndex
           (queueFamilyProperties : list VkQueueFamilyProperties)
           (flag : Z) : Z :=
  queue_index_scan queueFamilyProperties flag 0 (-1).

(** The overload that takes the device. *)
Definition GetPhysicalDeviceQueueFamilyIndex_device
           (physicalDevice : VkPhysicalDevice) (flag : Z) : Outcome Z :=
  ASSERT (CheckValidHandle (handle physicalDevice))
         "\tInvalid Physical Device handle given" ;;;
  queueFamilyProperties <- GetPhysicalDeviceQueueFamilyProperties physicalDevice ;;
  Ret (queue_index_scan queueFamilyProperties flag 0 (-1)).

(** *** GetPhysicalDeviceSurfaceSupportQueueIndex *)

(** [for(uint i=0; i<queues.size(); i++)] with its [break]. *)
Fixpoint surface_index_scan (support : Z -> VkBool32)
         (queues : list VkQueueFamilyProperties)
         (i : Z) (presentationQueueIdx : Z) : Z :=
  match queues with
  | [] => presentationQueueIdx
  | _ :: rest =>
      let presentationSupported := support i in
      if negb (presentationSupported =? 0)
      then to_int i
      else surface_index_scan support rest (uint32 (i + 1)) presentationQueueIdx
  end.

Definition GetPhysicalDeviceSurfaceSupportQueueIndex
           (physicalDevice : VkPhysicalDevice) (surface : VkSurfaceKHR)
  : Outcome Z :=
  ASSERT (CheckValidHandle (handle physicalDevice))
         "\tInvalid Physical Device handle given" ;;;
  ASSERT (CheckValidHandle surface) "\tInvalid Surface handle passed" ;;;
  queues <- GetPhysicalDeviceQueueFamilyProperties physicalDevice ;;
  Ret (surface_index_scan (drv_surfaceSupport physicalDevice surface)
                          queues 0 (-1)).

End Tools.

Import Tools.

(** ** VulkanEnumStringifier.hpp *)

Module EnumStringifier.

Definition ResultString (res : Z) : string :=
  match res with
  | 0 => "VK_SUCCESS"
  | 1 => "VK_NOT_READY"
  | 2 => "VK_TIMEOUT"
  | 3 => "VK_EVENT_SET"
  | 4 => "VK_EVENT_RESET"
  | 5 => "VK_INCOMPLETE"
  | -1 => "VK_ERROR_OUT_OF_HOST_MEMORY"
  | -2 => "VK_ERROR_OUT_OF_DEVICE_MEMORY"
  | -3 => "VK_ERROR_INITIALIZATION_FAILED"
  | -4 => "VK_ERROR_DEVICE_LOST"
  | -5 => "VK_ERROR_MEMORY_MAP_FAILED"
  | -6 => "VK_ERROR_LAYER_NOT_PRESENT"
  | -7 => "VK_ERROR_EXTENSION_NOT_PRESENT"
  | -8 => "VK_ERROR_FEATURE_NOT_PRESENT"
  | -9 => "VK_ERROR_INCOMPATIBLE_DRIVER"
  | -10 => "VK_ERROR_TOO_MANY_OBJECTS"
  | -11 => "VK_ERROR_FORMAT_NOT_SUPPORTED"
  | -12 => "VK_ERROR_FRAGMENTED_POOL"
  | -13 => "VK_ERROR_UNKNOWN"
  | -1000069000 => "VK_ERROR_OUT_OF_POOL_MEMORY"
  | -1000072003 => "VK_ERROR_INVALID_EXTERNAL_HANDLE"
  | -1000161000 => "VK_ERROR_FRAGMENTATION"
  | -1000257000 => "VK_ERROR_INVALID_OPAQUE_CAPTURE_ADDRESS"
  | -1000000000 => "VK_ERROR_SURFACE_LOST_KHR"
  | -1000000001 => "VK_ERROR_NATIVE_WINDOW_IN_USE_KHR"
  | 1000001003 => "VK_SUBOPTIMAL_KHR"
  | -1000001004 => "VK_ERROR_OUT_OF_DATE_KHR"
  | -1000003001 => "VK_ERROR_INCOMPATIBLE_DISPLAY_KHR"
  | -1000011001 => "VK_ERROR_VALIDATION_FAILED_EXT"
  | -1000012000 => "VK_ERROR_INVALID_SHADER_NV"
  | -1000158000 => "VK_ERROR_INVALID_DRM_FORMAT_MODIFIER_PLANE_LAYOUT_EXT"
  | -1000174001 => "VK_ERROR_NOT_PERMITTED_EXT"
  | -1000255000 => "VK_ERROR_FULL_SCREEN_EXCLUSIVE_MODE_LOST_EXT"
  | 1000268000 => "VK_THREAD_IDLE_KHR"
  | 1000268001 => "VK_THREAD_DONE_KHR"
  | 1000268002 => "VK_OPERATION_DEFERRED_KHR"
  | 1000268003 => "VK_OPERATION_NOT_DEFERRED_KHR"
  | 1000297000 => "VK_PIPELINE_COMPILE_REQUIRED_EXT"
  | 0x7FFFFFFF => "VK_RESULT_MAX_ENUM"
  | _ => "ERROR : Unknown VkResult value passed"
  end.

End EnumStringifier.

(** ** Vulkan.hpp: the lookup of a name in a list of names *)

Module Names.

(** The overload for C strings: [!strcmp(obj, object)] is equality of the two
    strings. *)
Fixpoint CheckAvailability (container : list string) (object : string) : bool :=
  match container with
  | [] => false
  | obj :: rest =>
      if String.eqb obj object then true else CheckAvailability rest object
  end.

End Names.

(** ** VulkanTools.hpp: GetSurfaceExtensions *)

Module SurfaceExtensions.

(** The names the instance extension query of the loader writes on the
    host ([drv_instanceExtensionNames]), and what the storage that held
    them gives back once it is freed: [mem_instanceExtensionNames host turn]
    are the strings read through the pointers at the lookup number [turn]
    of the caller, which may allocate between two lookups. *)
Record Host := {
  drv_instanceExtensionNames : list string;
  mem_instanceExtensionNames : nat -> list string
}.

(** The vector returned holds [extensions[i].extensionName], pointers into
    the local vector [extensions], which is destroyed at the return: what a
    caller reads through them at its lookup number [turn] is the freed
    storage as it is then. *)
Definition EnumerateInstanceExtensionNames (host : Host) : nat -> list string :=
  mem_instanceExtensionNames host.

Definition surfaceExtensions : list string :=
  [ "VK_KHR_surface";
    "VK_KHR_xcb_surface";
    "VK_KHR_xlib_surface";
    "VK_KHR_wayland_surface";
    "VK_KHR_win32_surface";
    "VK_MVK_ios_surface";
    "VK_MVK_macos_surface";
    "VK_EXT_metal_surface";
    "VK_KHR_android_surface" ]%string.

(** [for(const auto extension : surfaceExtensions)] with its [push_back];
    [turn] counts the lookups made so far. *)
Fixpoint surface_extension_scan (availableExtensions : nat -> list string)
         (remaining : list string) (turn : nat) (extensions : list string)
  : list string :=
  match remaining with
  | [] => extensions
  | extension :: rest =>
      surface_extension_scan availableExtensions rest (S turn)
        (if Names.CheckAvailability (availableExtensions turn) extension
         then extensions ++ [extension] else extensions)
  end.

Definition GetSurfaceExtensions (host : Host) : list string :=
  let extensions := [] in
  let availableExtensions := EnumerateInstanceExtensionNames host in
  surface_extension_scan availableExtensions surfaceExtensions 0 extensions.

End SurfaceExtensions.

(** ** Vulkan.hpp, the revision that returns [std::optional] *)

Module VulkanRev.

(** [#define CHECK_VULKAN_HANDLE(VulkanHandle) ASSERT(VulkanHandle != VK_NULL_HANDLE, ...)] *)
Definition CHECK_VULKAN_HANDLE (h : Z) : Outcome unit :=
  ASSERT (negb (h =? VK_NULL_HANDLE))
         "Invalid Vulkan handle passed as parameter [ parameter name : %s ]".

(** [std::optional::value()]: an empty optional throws
    [std::bad_optional_access]. Nothing in the library catches it, the
    call is left with the exception; it is written as [Abort] with the
    name of the exception. *)
Definition value (o : option Z) : Outcome Z :=
  match o with
  | Some v => Ret v
  | None => Abort "std::bad_optional_access"
  end.

Definition GetPhysicalDeviceQueueFamilyProperties (physicalDevice : VkPhysicalDevice)
  : Outcome (list VkQueueFamilyProperties) :=
  CHECK_VULKAN_HANDLE (handle physicalDevice) ;;;
  Ret (drv_queueFamilies physicalDevice).

(** [for(uint32 i = 0; i<queueFamilyProperties.size(); i++)] *)
Fixpoint queue_index_scan (queueFamilyProperties : list VkQueueFamilyProperties)
         (flag : Z) (i : Z) (queueIdx : option Z) : option Z :=
  match queueFamilyProperties with
  | [] => queueIdx
  | family :: rest =>
      let queueIdx :=
        if negb (Z.land (queueFlags family) flag =? 0)
        then Some i else queueIdx in
      queue_index_scan rest flag (uint32 (i + 1)) queueIdx
  end.

Definition GetPhysicalDeviceQueueFamilyIndex
           (queueFamilyProperties : list VkQueueFamilyProperties)
           (flag : Z) : option Z :=
  queue_index_scan queueFamilyProperties flag 0 None.

(** The overload that takes the device. *)
Definition GetPhysicalDeviceQueueFamilyIndex_device
           (physicalDevice : VkPhysicalDevice) (flag : Z) : Outcome (option Z) :=
  CHECK_VULKAN_HANDLE (handle physicalDevice) ;;;
  queueFamilyProperties <- GetPhysicalDeviceQueueFamilyProperties physicalDevice ;;
  Ret (queue_index_scan queueFamilyProperties flag 0 None).

(** [for(uint i=0; i<queues.size(); i++)] with its [break]. *)
Fixpoint surface_index_scan (support : Z -> VkBool32)
         (queues : list VkQueueFamilyProperties)
         (i : Z) (presentationQueueIdx : option Z) : option Z :=
  match queues with
  | [] => presentationQueueIdx
  | _ :: rest =>
      let presentationSupported := support i in
      if negb (presentationSupported =? 0)
      then Some i
      else surface_index_scan support rest (uint32 (i + 1)) presentationQueueIdx
  end.

Definition GetPhysicalDeviceSurfaceSupportQueueIndex
           (physicalDevice : VkPhysicalDevice) (surface : VkSurfaceKHR)
  : Outcome (option Z) :=
  CHECK_VULKAN_HANDLE (handle physicalDevice) ;;;
  CHECK_VULKAN_HANDLE surface ;;;
  queues <- GetPhysicalDeviceQueueFamilyProperties physicalDevice ;;
  Ret (surface_index_scan (drv_surfaceSupport physicalDevice surface)
                          queues 0 None).

(** The fields of [VkSurfaceCapabilitiesKHR] that the swapchain initializer
    reads beside the extents. *)
Record SurfaceImageLimits := {
  minImageCount : Z;
  maxImageCount : Z;
  currentTransform : Z
}.

(** What the driver reports for the device at hand and a surface: the
    capabilities, the present modes and the formats. *)
Record SurfaceDetails := {
  drv_capabilities : VkSurfaceCapabilitiesKHR;
  drv_imageLimits : SurfaceImageLimits;
  drv_presentModes : list Z;
  drv_formats : list VkSurfaceFormatKHR
}.

Definition SurfaceDriver := VkSurfaceKHR -> SurfaceDetails.

(** The capabilities come as the record of the extents with the record of
    the other fields read by the initializer. *)
Definition GetPhysicalDeviceSurfaceCapabilities (driver : SurfaceDriver)
           (physicalDevice : VkPhysicalDevice) (surface : VkSurfaceKHR)
  : Outcome (VkSurfaceCapabilitiesKHR * SurfaceImageLimits) :=
  CHECK_VULKAN_HANDLE (handle physicalDevice) ;;;
  CHECK_VULKAN_HANDLE surface ;;;
  Ret (drv_capabilities (driver surface), drv_imageLimits (driver surface)).

Definition GetPhysicalDeviceSurfacePresentModes (driver : SurfaceDriver)
           (physicalDevice : VkPhysicalDevice) (surface : VkSurfaceKHR)
  : Outcome (list Z) :=
  CHECK_VULKAN_HANDLE (handle physicalDevice) ;;;
  CHECK_VULKAN_HANDLE surface ;;;
  Ret (drv_presentModes (driver surface)).

Definition GetPhysicalDeviceSurfaceFormats (driver : SurfaceDriver)
           (physicalDevice : VkPhysicalDevice) (surface : VkSurfaceKHR)
  : Outcome (list VkSurfaceFormatKHR) :=
  CHECK_VULKAN_HANDLE (handle physicalDevice) ;;;
  CHECK_VULKAN_HANDLE surface ;;;
  Ret (drv_formats (driver surface)).

End VulkanRev.

(** ** VulkanInitializers.hpp: SwapchainCreateInfo *)

Module Init.

Definition VK_STRUCTURE_TYPE_SWAPCHAIN_CREATE_INFO_KHR : Z := 1000001000.
Definition VK_IMAGE_USAGE_COLOR_ATTACHMENT_BIT : Z := 16.
Definition VK_SHARING_MODE_EXCLUSIVE : Z := 0.
Definition VK_SHARING_MODE_CONCURRENT : Z := 1.
Definition VK_COMPOSITE_ALPHA_OPAQUE_BIT_KHR : Z := 1.

(** What [pQueueFamilyIndices] is set to: [nullptr], or the address of
    [queueFamilyIndices], an automatic array of the initializer. The array
    ends with the call that declared it, so that the create info handed to
    the caller holds an address with nothing to read behind it. *)
Inductive QueueFamilyIndicesPointer :=
| nullptr
| queueFamilyIndices_address.

Record VkSwapchainCreateInfoKHR := {
  sType : Z;
  oldSwapchain : Z;
  surface : VkSurfaceKHR;
  presentMode : Z;
  imageFormat : Z;
  imageColorSpace : Z;
  imageUsage : Z;
  imageExtent : VkExtent2D;
  minImageCount : Z;
  imageArrayLayers : Z;
  imageSharingMode : Z;
  queueFamilyIndexCount : Z;
  pQueueFamilyIndices : QueueFamilyIndicesPointer;
  preTransform : Z;
  compositeAlpha : Z;
  clipped : VkBool32
}.

(** [imageCount] as the initializer computes it from the capabilities. *)
Definition image_count (limits : VulkanRev.SurfaceImageLimits) : Z :=
  let imageCount := uint32 (VulkanRev.minImageCount limits + 1) in
  if (0 <? VulkanRev.maxImageCount limits)
     && (VulkanRev.maxImageCount limits <? imageCount)
  then VulkanRev.maxImageCount limits
  else imageCount.

Definition SwapchainCreateInfo (driver : VulkanRev.SurfaceDriver)
           (physicalDevice : VkPhysicalDevice) (surface : VkSurfaceKHR)
           (window : SDL_Window) : Outcome VkSwapchainCreateInfoKHR :=
  surfacePresentModes <-
    VulkanRev.GetPhysicalDeviceSurfacePresentModes driver physicalDevice surface ;;
  capabilities <-
    VulkanRev.GetPhysicalDeviceSurfaceCapabilities driver physicalDevice surface ;;
  let '(surfaceCapabilities, imageLimits) := capabilities in
  surfaceFormats <-
    VulkanRev.GetPhysicalDeviceSurfaceFormats driver physicalDevice surface ;;
  surfaceFormat <- SelectSwapchainSurfaceFormat surfaceFormats ;;
  let surfacePresentMode := SelectSwapchainSurfacePresentMode surfacePresentModes in
  let swapchainImageExtent :=
    SelectSwapchainSurfaceImageExtent window surfaceCapabilities in
  let imageCount := image_count imageLimits in
  graphicsQueueIdx <-
    VulkanRev.GetPhysicalDeviceQueueFamilyIndex_device physicalDevice
                                                       VK_QUEUE_GRAPHICS_BIT ;;
  presentQueueIdx <-
    VulkanRev.GetPhysicalDeviceSurfaceSupportQueueIndex physicalDevice surface ;;
  graphics <- VulkanRev.value graphicsQueueIdx ;;
  present <- VulkanRev.value presentQueueIdx ;;
  let concurrent := negb (graphics =? present) in
  Ret {| sType := VK_STRUCTURE_TYPE_SWAPCHAIN_CREATE_INFO_KHR;
         oldSwapchain := VK_NULL_HANDLE;
         surface := surface;
         presentMode := surfacePresentMode;
         imageFormat := format surfaceFormat;
         imageColorSpace := colorSpace surfaceFormat;
         imageUsage := VK_IMAGE_USAGE_COLOR_ATTACHMENT_BIT;
         imageExtent := swapchainImageExtent;
         minImageCount := imageCount;
         imageArrayLayers := 1;
         imageSharingMode :=
           if concurrent then VK_SHARING_MODE_CONCURRENT
           else VK_SHARING_MODE_EXCLUSIVE;
         queueFamilyIndexCount := if concurrent then 2 else 0;
         pQueueFamilyIndices :=
           if concurrent then queueFamilyIndices_address else nullptr;
         preTransform := VulkanRev.currentTransform imageLimits;
         compositeAlpha := VK_COMPOSITE_ALPHA_OPAQUE_BIT_KHR;
         clipped := VK_TRUE |}.

End Init.

(** ** VulkanBase.hpp: the lists of names of [struct VulkanBase] *)

Module Base.

(** The members of [VulkanBase] read or written by the functions below.
    The instance and the physical device are handles; the record that
    stands for a null handle carries nothing the driver would report. *)
Record VulkanBase := {
  availableInstanceExtensions : list string;
  instanceExtensions : list string;
  availableInstanceLayers : list string;
  instanceLayers : list string;
  instance : VkInstance;
  surface : VkSurfaceKHR;
  physicalDevice : VkPhysicalDevice;
  availableDeviceExtensions : list string;
  deviceExtensions : list string
}.

Definition null_physical_device : VkPhysicalDevice :=
  {| handle := VK_NULL_HANDLE;
     drv_properties :=
       {| limits := {| maxColorAttachments := 0;
                       maxDescriptorSetInputAttachments := 0;
                       maxImageDimension2D := 0;
                       maxImageArrayLayers := 0;
                       maxViewports := 0 |} |};
     drv_memoryProperties := {| memoryHeapCount := 0 |};
     drv_features := {| multiViewport := VK_FALSE |};
     drv_queueFamilies := [];
     drv_extensionNames := [];
     mem_extensionNames := [];
     drv_surfaceSupport := fun _ _ => VK_FALSE;
     drv_presentModeCount := fun _ => 0;
     drv_formatCount := fun _ => 0 |}.

Definition set_instanceExtensions (base : VulkanBase) (names : list string)
  : VulkanBase :=
  {| availableInstanceExtensions := availableInstanceExtensions base;
     instanceExtensions := names;
     availableInstanceLayers := availableInstanceLayers base;
     instanceLayers := instanceLayers base;
     instance := instance base;
     surface := surface base;
     physicalDevice := physicalDevice base;
     availableDeviceExtensions := availableDeviceExtensions base;
     deviceExtensions := deviceExtensions base |}.

Definition set_deviceExtensions (base : VulkanBase) (names : list string)
  : VulkanBase :=
  {| availableInstanceExtensions := availableInstanceExtensions base;
     instanceExtensions := instanceExtensions base;
     availableInstanceLayers := availableInstanceLayers base;
     instanceLayers := instanceLayers base;
     instance := instance base;
     surface := surface base;
     physicalDevice := physicalDevice base;
     availableDeviceExtensions := availableDeviceExtensions base;
     deviceExtensions := names |}.

(** Each function returns its [bool] with the object after the call. *)
Definition EnableInstanceExtension (base : VulkanBase) (extensionName : string)
  : bool * VulkanBase :=
  if Names.CheckAvailability (availableInstanceExtensions base) extensionName then
    let base :=
      if Bool.eqb (Names.CheckAvailability (instanceExtensions base) extensionName)
                  false
      then set_instanceExtensions base (instanceExtensions base ++ [extensionName])
      else base in
    (true, base)
  else (false, base).

(** The [push_back] of the source is on [instanceExtensions]. *)
Definition EnableInstanceLayer (base : VulkanBase) (layerName : string)
  : bool * VulkanBase :=
  if Names.CheckAvailability (availableInstanceLayers base) layerName then
    let base :=
      if Bool.eqb (Names.CheckAvailability (instanceLayers base) layerName) false
      then set_instanceExtensions base (instanceExtensions base ++ [layerName])
      else base in
    (true, base)
  else (false, base).

Definition EnableDeviceExtension (base : VulkanBase) (extensionName : string)
  : bool * VulkanBase :=
  if Names.CheckAvailability (availableDeviceExtensions base) extensionName then
    let base :=
      if Bool.eqb (Names.CheckAvailability (deviceExtensions base) extensionName)
                  false
      then set_deviceExtensions base (deviceExtensions base ++ [extensionName])
      else base in
    (true, base)
  else (false, base).

End Base.

(** * Vocabulary of the statements *)

(** What the function has accumulated when it reaches the surface block. *)
Definition base_score (physicalDevice : VkPhysicalDevice) : Z :=
  let l := limits (drv_properties physicalDevice) in
  let score := add32 0 (mul32 (maxColorAttachments l) 100) in
  let score := add32 score (mul32 (maxDescriptorSetInputAttachments l) 100) in
  let score := add32 score (mul32 (maxImageDimension2D l) 1000) in
  let score := add32 score (mul32 (maxImageArrayLayers l) 10) in
  let score := add32 score (mul32 (maxViewports l) 500) in
  let score :=
    add32 score (mul32 (memoryHeapCount (drv_memoryProperties physicalDevice)) 1000) in
  let score :=
    if multiViewport (drv_features physicalDevice) =? VK_TRUE
    then add32 score 500 else score in
  queue_scan (drv_queueFamilies physicalDevice) score.

(** The value returned for a valid handle, once the surface block is known
    to add its bonus whatever the loop met. *)
Definition rated_score (physicalDevice : VkPhysicalDevice)
           (surface : VkSurfaceKHR) : Z :=
  let score :=
    if negb (surface =? VK_NULL_HANDLE)
    then add32 (base_score physicalDevice) 110000
    else base_score physicalDevice in
  let score :=
    if negb (swapchain_scan (mem_extensionNames physicalDevice) false)
    then 0 else score in
  if negb (surface =? VK_NULL_HANDLE) then
    if drv_formatCount physicalDevice surface =? 0 then 0
    else if drv_presentModeCount physicalDevice surface =? 0 then 0
    else score
  else score.

(** What is read back from a freed vector of names once the allocator has
    written its own bookkeeping over the head of the freed block and left
    the rest as it was: in place of the first name, bytes that spell no
    name (here a zero byte, the empty string); the other names as the
    driver wrote them. *)
Definition overwritten_bytes : string := "".

Definition freed_head (names : list string) : list string :=
  match names with
  | [] => []
  | _ :: rest => overwritten_bytes :: rest
  end.

(** [read] is read back from the freed storage that held [names]: place by
    place the name the driver wrote, or, where the storage was written
    since, bytes that do not spell the swapchain extension name. *)
Definition read_after_free (names read : list string) : Prop :=
  Forall2 (fun name r => r = name \/ r <> VK_KHR_SWAPCHAIN_EXTENSION_NAME)
          names read.

(** Sample devices used by the examples below; their extension names are
    read back with the first one overwritten. *)
Definition sample_limits : VkPhysicalDeviceLimits :=
  {| maxColorAttachments := 8;
     maxDescriptorSetInputAttachments := 8;
     maxImageDimension2D := 16384;
     maxImageArrayLayers := 2048;
     maxViewports := 16 |}.

Definition sample_device (h : Z) (flags : list Z) (support : Z -> VkBool32)
           (extensions : list string) (presentModes formats : Z)
  : VkPhysicalDevice :=
  {| handle := h;
     drv_properties := {| limits := sample_limits |};
     drv_memoryProperties := {| memoryHeapCount := 2 |};
     drv_features := {| multiViewport := VK_TRUE |};
     drv_queueFamilies := map (fun f => {| queueFlags := f |}) flags;
     drv_extensionNames := extensions;
     mem_extensionNames := freed_head extensions;
     drv_surfaceSupport := fun _ => support;
     drv_presentModeCount := fun _ => presentModes;
     drv_formatCount := fun _ => formats |}.

(** A device with one graphics family that cannot present to any surface;
    the swapchain extension is the second name of its list. *)
Definition offscreen_device : VkPhysicalDevice :=
  sample_device 4096 [VK_QUEUE_GRAPHICS_BIT] (fun _ => VK_FALSE)
                ["VK_KHR_maintenance1"; "VK_KHR_swapchain"]%string 3 2.

(** The two tests of the first loop over the queue families. *)
Definition graphics_capable (queue : VkQueueFamilyProperties) : bool :=
  negb (Z.land (queueFlags queue) VK_QUEUE_GRAPHICS_BIT =? 0).

Definition compute_capable (queue : VkQueueFamilyProperties) : bool :=
  negb (Z.land (queueFlags queue) VK_QUEUE_COMPUTE_BIT =? 0).

(** Number of families of the list that pass a test. *)
Definition count_families (capable : VkQueueFamilyProperties -> bool)
           (queues : list VkQueueFamilyProperties) : Z :=
  Z.of_nat (List.length (filter capable queues)).

(** The bonuses as the specification words them: one fixed amount when at
    least one family has the capability. *)
Definition queue_bonus_when_any (queues : list VkQueueFamilyProperties)
           (score : Z) : Z :=
  let score :=
    if existsb graphics_capable queues then add32 score 100000 else score in
  if existsb compute_capable queues then add32 score 50000 else score.

(** Two families that do graphics and nothing else. *)
Definition two_graphics_families : list VkQueueFamilyProperties :=
  [ {| queueFlags := VK_QUEUE_GRAPHICS_BIT |};
    {| queueFlags := VK_QUEUE_GRAPHICS_BIT |} ].

(** The handle passes [CheckValidHandle]. *)
Definition valid_device (physicalDevice : VkPhysicalDevice) : Prop :=
  handle physicalDevice <> VK_NULL_HANDLE.

(** The extension list of a device that has the swapchain extension, not
    as its first name, and of one that lacks it. *)
Definition with_swapchain : list string :=
  [ "VK_KHR_maintenance1"; "VK_KHR_swapchain" ]%string.

Definition without_swapchain : list string :=
  [ "VK_KHR_maintenance1"; "VK_KHR_maintenance2" ]%string.

(** Four devices: the first lacks the swapchain extension, the second and
    the third are alike but for their handles, the fourth has a compute
    family only. *)
Definition tie_instance : VkInstance :=
  {| instance_handle := 64;
     drv_physicalDevices :=
       [ sample_device 4096 [3] (fun _ => VK_TRUE) without_swapchain 3 2;
         sample_device 4097 [3] (fun _ => VK_TRUE) with_swapchain 3 2;
         sample_device 4098 [3] (fun _ => VK_TRUE) with_swapchain 3 2;
         sample_device 4099 [2] (fun _ => VK_TRUE) with_swapchain 3 2 ] |}.

(** Two devices, one without the swapchain extension, one without any
    present mode for the surface. *)
Definition unsuitable_instance : VkInstance :=
  {| instance_handle := 64;
     drv_physicalDevices :=
       [ sample_device 4096 [3] (fun _ => VK_TRUE) ["VK_KHR_maintenance1"%string] 3 2;
         sample_device 4097 [3] (fun _ => VK_TRUE) ["VK_KHR_swapchain"%string] 0 2 ] |}.

(** The pair the format selection looks for. *)
Definition preferred_format : VkSurfaceFormatKHR :=
  {| format := VK_FORMAT_B8G8R8A8_SRGB;
     colorSpace := VK_COLOR_SPACE_SRGB_NONLINEAR_KHR |}.

(** [std::max(lo, std::min(hi, x))] *)
Definition clamp (lo hi x : Z) : Z := Z.max lo (Z.min hi x).

(** Capabilities whose current extent is the undefined one. *)
Definition undefined_extent_capabilities : VkSurfaceCapabilitiesKHR :=
  {| currentExtent := {| width := UINT32_MAX; height := UINT32_MAX |};
     minImageExtent := {| width := 1; height := 1 |};
     maxImageExtent := {| width := 1024; height := 1024 |} |}.

(** The flags [flags] of a family include the capability [flag]. *)
Definition includes_flag (flags flag : Z) : Prop := Z.land flags flag = flag.

(** The test of the source, [queueFlags & flag]. *)
Definition flag_test (flag : Z) (family : VkQueueFamilyProperties) : bool :=
  negb (Z.land (queueFlags family) flag =? 0).

(** The family at position [j] of the list, if any. *)
Definition family_at (families : list VkQueueFamilyProperties) (j : Z)
  : option VkQueueFamilyProperties :=
  if j <? 0 then None else nth_error families (Z.to_nat j).

(** [r] is the last position below [n] at which [P] holds, [-1] when
    there is none. *)
Definition last_index_where (P : Z -> Prop) (n r : Z) : Prop :=
  ((forall j, 0 <= j < n -> ~ P j) -> r = -1) /\
  ((exists j, 0 <= j < n /\ P j) ->
   0 <= r < n /\ P r /\ forall j, r < j < n -> ~ P j).

(** [r] is the first position below [n] at which [P] holds, [-1] when
    there is none. *)
Definition first_index_where (P : Z -> Prop) (n r : Z) : Prop :=
  ((forall j, 0 <= j < n -> ~ P j) -> r = -1) /\
  ((exists j, 0 <= j < n /\ P j) ->
   0 <= r < n /\ P r /\ forall j, 0 <= j < r -> ~ P j).

(** A device whose families 0, 1 and 3 do graphics and whose families 1,
    2 and 3 present to the surface: the graphics index is 3, the last one,
    the presentation index is 1, the first one. *)
Definition four_family_device : VkPhysicalDevice :=
  sample_device 4096 [1; 3; 2; 1] (fun i => if 1 <=? i then VK_TRUE else VK_FALSE)
                ["VK_KHR_swapchain"%string] 3 2.

(** The calls [EnableInstanceExtension], [EnableInstanceLayer] and
    [EnableDeviceExtension] made one after the other for a list of names;
    the returned [bool] is dropped. *)
Definition enable_instance_extensions (base : Base.VulkanBase)
           (names : list string) : Base.VulkanBase :=
  fold_left (fun b name => snd (Base.EnableInstanceExtension b name)) names base.

Definition enable_instance_layers (base : Base.VulkanBase)
           (names : list string) : Base.VulkanBase :=
  fold_left (fun b name => snd (Base.EnableInstanceLayer b name)) names base.

Definition enable_device_extensions (base : Base.VulkanBase)
           (names : list string) : Base.VulkanBase :=
  fold_left (fun b name => snd (Base.EnableDeviceExtension b name)) names base.

(** A host that lists the given instance extension names; at every lookup
    they are read back with the first one overwritten. *)
Definition freed_host (names : list string) : SurfaceExtensions.Host :=
  {| SurfaceExtensions.drv_instanceExtensionNames := names;
     SurfaceExtensions.mem_instanceExtensionNames := fun _ => freed_head names |}.

(** Two hosts with two of the surface extensions: the first lists one of
    them first, the second lists another name first. *)
Definition sample_host : SurfaceExtensions.Host :=
  freed_host [ "VK_KHR_xcb_surface"; "VK_EXT_debug_utils"; "VK_KHR_surface" ]%string.

Definition debug_first_host : SurfaceExtensions.Host :=
  freed_host [ "VK_EXT_debug_utils"; "VK_KHR_xcb_surface"; "VK_KHR_surface" ]%string.

(** [read] is read back from the freed storage that held the instance
    extension [names]: place by place the name the host wrote, or, where
    the storage was written since, bytes that spell none of the nine
    surface extension names. With [surface_names_kept] the overwritten
    places, moreover, held none of the nine names. *)
Definition surface_read_after_free (names read : list string) : Prop :=
  Forall2 (fun name r =>
             r = name \/ ~ In r SurfaceExtensions.surfaceExtensions)
          names read.

Definition surface_names_kept (names read : list string) : Prop :=
  Forall2 (fun name r =>
             r = name \/
             (~ In name SurfaceExtensions.surfaceExtensions /\
              ~ In r SurfaceExtensions.surfaceExtensions))
          names read.

(** The names of a list with their positions, the first one at [start]. *)
Fixpoint numbered (start : nat) (names : list string) : list (nat * string) :=
  match names with
  | [] => []
  | name :: rest => (start, name) :: numbered (S start) rest
  end.

(** A [VulkanBase] with one available layer and nothing enabled. *)
Definition layer_base : Base.VulkanBase :=
  {| Base.availableInstanceExtensions := [];
     Base.instanceExtensions := [];
     Base.availableInstanceLayers := [ "VK_LAYER_KHRONOS_validation" ]%string;
     Base.instanceLayers := [];
     Base.instance := tie_instance;
     Base.surface := 1;
     Base.physicalDevice := Base.null_physical_device;
     Base.availableDeviceExtensions := [];
     Base.deviceExtensions := [] |}.

(** The enabled names after requesting [names] one after the other: a
    requested name is appended when it is in [available] and not yet
    enabled. *)
Definition enable_names (available names enabled : list string) : list string :=
  fold_left
    (fun acc name =>
       if Names.CheckAvailability available name
       then if Names.CheckAvailability acc name then acc else acc ++ [name]
       else acc)
    names enabled.

(** A [VulkanBase] whose instance is [tie_instance], with a surface. *)
Definition sample_base : Base.VulkanBase :=
  {| Base.availableInstanceExtensions :=
       [ "VK_KHR_xcb_surface"; "VK_EXT_debug_utils"; "VK_KHR_surface" ]%string;
     Base.instanceExtensions := [ "VK_KHR_surface" ]%string;
     Base.availableInstanceLayers := [];
     Base.instanceLayers := [];
     Base.instance := tie_instance;
     Base.surface := 1;
     Base.physicalDevice := Base.null_physical_device;
     Base.availableDeviceExtensions := [ "VK_KHR_swapchain" ]%string;
     Base.deviceExtensions := [] |}.

(** The [int] that the older index functions return for the [std::optional]
    of the later ones. *)
Definition optional_to_int (o : option Z) : Z :=
  match o with
  | Some v => v
  | None => -1
  end.

(** The accumulators of the loops of the two revisions go together: the
    same index, below [2^31], or [-1] for the empty optional. *)
Definition index_agree (o : option Z) (z : Z) : Prop :=
  z = optional_to_int o /\
  match o with
  | Some v => 0 <= v < 2 ^ 31
  | None => True
  end.

(** The create info that [SwapchainCreateInfo] fills once the format and
    the two queue family indices are known. *)
Definition swapchain_info (driver : VulkanRev.SurfaceDriver)
           (surface : VkSurfaceKHR) (window : SDL_Window)
           (surfaceFormat : VkSurfaceFormatKHR) (graphics present : Z)
  : Init.VkSwapchainCreateInfoKHR :=
  let concurrent := negb (graphics =? present) in
  {| Init.sType := Init.VK_STRUCTURE_TYPE_SWAPCHAIN_CREATE_INFO_KHR;
     Init.oldSwapchain := VK_NULL_HANDLE;
     Init.surface := surface;
     Init.presentMode :=
       SelectSwapchainSurfacePresentMode (VulkanRev.drv_presentModes (driver surface));
     Init.imageFormat := format surfaceFormat;
     Init.imageColorSpace := colorSpace surfaceFormat;
     Init.imageUsage := Init.VK_IMAGE_USAGE_COLOR_ATTACHMENT_BIT;
     Init.imageExtent :=
       SelectSwapchainSurfaceImageExtent
         window (VulkanRev.drv_capabilities (driver surface));
     Init.minImageCount := Init.image_count (VulkanRev.drv_imageLimits (driver surface));
     Init.imageArrayLayers := 1;
     Init.imageSharingMode :=
       if concurrent then Init.VK_SHARING_MODE_CONCURRENT
       else Init.VK_SHARING_MODE_EXCLUSIVE;
     Init.queueFamilyIndexCount := if concurrent then 2 else 0;
     Init.pQueueFamilyIndices :=
       if concurrent then Init.queueFamilyIndices_address else Init.nullptr;
     Init.preTransform :=
       VulkanRev.currentTransform (VulkanRev.drv_imageLimits (driver surface));
     Init.compositeAlpha := Init.VK_COMPOSITE_ALPHA_OPAQUE_BIT_KHR;
     Init.clipped := VK_TRUE |}.

(** Some family of the device does graphics; some family of the device
    presents to the surface. *)
Definition has_graphics_family (physicalDevice : VkPhysicalDevice) : Prop :=
  exists q, In q (drv_queueFamilies physicalDevice) /\ graphics_capable q = true.

Definition has_presenting_family (physicalDevice : VkPhysicalDevice)
           (surface : VkSurfaceKHR) : Prop :=
  exists j, 0 <= j < Z.of_nat (List.length (drv_queueFamilies physicalDevice)) /\
            drv_surfaceSupport physicalDevice surface j <> VK_FALSE.

(** A surface with three present modes and two formats, and the driver
    that reports it for every surface. *)
Definition sample_details : VulkanRev.SurfaceDetails :=
  {| VulkanRev.drv_capabilities := undefined_extent_capabilities;
     VulkanRev.drv_imageLimits :=
       {| VulkanRev.minImageCount := 2;
          VulkanRev.maxImageCount := 8;
          VulkanRev.currentTransform := 1 |};
     VulkanRev.drv_presentModes :=
       [ VK_PRESENT_MODE_FIFO_KHR; VK_PRESENT_MODE_MAILBOX_KHR;
         VK_PRESENT_MODE_IMMEDIATE_KHR ];
     VulkanRev.drv_formats :=
       [ {| format := VK_FORMAT_B8G8R8A8_UNORM;
            colorSpace := VK_COLOR_SPACE_SRGB_NONLINEAR_KHR |};
         preferred_format ] |}.

Definition sample_driver : VulkanRev.SurfaceDriver := fun _ => sample_details.

(** Two families that both do graphics and both present to the surface. *)
Definition twin_family_device : VkPhysicalDevice :=
  sample_device 4096 [1; 1] (fun _ => VK_TRUE) ["VK_KHR_swapchain"%string] 3 2.

(** The window of the examples and the create info that the initializer
    returns for [twin_family_device] and the surface [1]. *)
Definition sample_window : SDL_Window := {| window_w := 1920; window_h := 1080 |}.

Definition twin_info : Init.VkSwapchainCreateInfoKHR :=
  swapchain_info sample_driver 1 sample_window preferred_format 1 0.

(** The values that have a [case] of their own in [ResultString], and the
    string of its [default]. *)
Definition known_results : list Z :=
  [ 0; 1; 2; 3; 4; 5; -1; -2; -3; -4; -5; -6; -7; -8; -9; -10; -11; -12; -13;
    -1000069000; -1000072003; -1000161000; -1000257000; -1000000000;
    -1000000001; 1000001003; -1000001004; -1000003001; -1000011001;
    -1000012000; -1000158000; -1000174001; -1000255000; 1000268000;
    1000268001; 1000268002; 1000268003; 1000297000; 0x7FFFFFFF ].

Definition unknown_result_string : string :=
  "ERROR : Unknown VkResult value passed".

(** An instance whose only device is [offscreen_device]. *)
Definition offscreen_instance : VkInstance :=
  {| instance_handle := 64; drv_physicalDevices := [offscreen_device] |}.

(** * Properties *)

(** ** Arithmetic of the 32-bit values *)

Lemma uint32_range (z : Z) : 0 <= uint32 z < 2 ^ 32.
Proof. unfold uint32. apply Z.mod_pos_bound. lia. Qed.

Lemma uint32_small (z : Z) : 0 <= z < 2 ^ 32 -> uint32 z = z.
Proof. intros H. unfold uint32. apply Z.mod_small. exact H. Qed.

Lemma uint32_succ_idemp (z : Z) : uint32 (uint32 z + 1) = uint32 (z + 1).
Proof. unfold uint32. apply Zplus_mod_idemp_l. Qed.

Lemma uint32_succ_neq (n : Z) : 0 <= n -> uint32 (n + 1) <> n.
Proof.
  intros Hn Heq.
  destruct (Z_lt_le_dec (n + 1) (2 ^ 32)) as [Hlt | Hge].
  - rewrite uint32_small in Heq by lia. lia.
  - pose proof (uint32_range (n + 1)) as Hr.
    assert (n = 2 ^ 32 - 1) as -> by lia.
    vm_compute in Heq. discriminate.
Qed.

Lemma to_int_small (z : Z) : 0 <= z < 2 ^ 31 -> to_int z = z.
Proof.
  intros H. unfold to_int.
  rewrite Z.mod_small; lia.
Qed.

Lemma add32_range (a b : Z) : 0 <= add32 a b < 2 ^ 32.
Proof. apply uint32_range. Qed.

(** ** Handles *)

Lemma CheckValidHandle_true (h : Z) :
  h <> VK_NULL_HANDLE -> CheckValidHandle h = true.
Proof.
  intros H. unfold CheckValidHandle.
  destruct (Z.eqb_spec h VK_NULL_HANDLE); [contradiction | reflexivity].
Qed.

Lemma CheckValidHandle_false (h : Z) :
  h = VK_NULL_HANDLE -> CheckValidHandle h = false.
Proof. intros ->. reflexivity. Qed.

Lemma CheckValidHandle_dec (h : Z) :
  (h = VK_NULL_HANDLE /\ CheckValidHandle h = false) \/
  (h <> VK_NULL_HANDLE /\ CheckValidHandle h = true).
Proof.
  destruct (Z.eq_dec h VK_NULL_HANDLE) as [E | N].
  - left. split; [exact E | now apply CheckValidHandle_false].
  - right. split; [exact N | now apply CheckValidHandle_true].
Qed.

(** ** The search for a family that presents to the surface *)

Section PresentationScan.

Variable support : Z -> VkBool32.

(** Started after [k] families, the loop either left through [break] with
    a non-zero flag, or visited every family and counted them all. *)
Lemma presentation_scan_inv (queues : list VkQueueFamilyProperties) :
  forall (k : Z) (flag : option VkBool32) i' flag',
    presentation_scan support queues (uint32 k) flag = (i', flag') ->
    (exists b, flag' = Some b /\ b <> 0) \/
    (i' = uint32 (k + Z.of_nat (List.length queues)) /\
     (queues = [] -> flag' = flag) /\
     (queues <> [] -> flag' = Some 0)).
Proof.
  induction queues as [| q rest IH]; intros k flag i' flag' Hscan.
  - simpl in Hscan. inversion Hscan; subst. right.
    rewrite Z.add_0_r. repeat split; congruence.
  - simpl in Hscan.
    destruct (Z.eqb_spec (support (uint32 k)) 0) as [E | N]; simpl in Hscan.
    + rewrite uint32_succ_idemp in Hscan.
      apply IH in Hscan. destruct Hscan as [Hb | (Hi & Hnil & Hcons)].
      * left. exact Hb.
      * right. split; [| split].
        -- rewrite Hi. f_equal. simpl List.length. lia.
        -- discriminate.
        -- intros _. destruct rest as [| q' rest'].
           ++ rewrite Hnil by reflexivity. now rewrite E.
           ++ apply Hcons. discriminate.
    + inversion Hscan; subst. left. eauto.
Qed.

(** A flag that was assigned stays assigned. *)
Lemma presentation_scan_flag_some (queues : list VkQueueFamilyProperties) :
  forall (i : Z) (b : VkBool32),
    snd (presentation_scan support queues i (Some b)) <> None.
Proof.
  induction queues as [| q rest IH]; intros i b; simpl.
  - discriminate.
  - destruct (negb (support i =? 0)); [discriminate | apply IH].
Qed.

(** The flag is still unassigned after the loop exactly when there was no
    family to visit. *)
Lemma presentation_scan_flag_none (queues : list VkQueueFamilyProperties) :
  forall (i : Z),
    snd (presentation_scan support queues i None) = None <-> queues = [].
Proof.
  destruct queues as [| q rest]; intros i.
  - simpl. tauto.
  - split; [| discriminate]. simpl.
    destruct (negb (support i =? 0)).
    + discriminate.
    + intros H. now apply presentation_scan_flag_some in H.
Qed.

(** When no visited family presents to the surface the loop runs to the
    end and the counter holds the number of families. *)
Lemma presentation_scan_none_found (queues : list VkQueueFamilyProperties) :
  forall (k : Z) (flag : option VkBool32),
    0 <= k ->
    (forall j, k <= j < k + Z.of_nat (List.length queues) ->
               support (uint32 j) = 0) ->
    fst (presentation_scan support queues (uint32 k) flag)
    = uint32 (k + Z.of_nat (List.length queues)).
Proof.
  induction queues as [| q rest IH]; intros k flag Hk Hnone.
  - simpl. now rewrite Z.add_0_r.
  - simpl. simpl List.length in Hnone.
    rewrite (Hnone k) by lia. simpl.
    rewrite uint32_succ_idemp, IH; [f_equal; simpl List.length; lia | lia |].
    intros j Hj. apply Hnone. lia.
Qed.

(** The test after the loop never holds: its left operand is true only
    when the loop left through [break] at the last family, and then the
    flag is non-zero. *)
Lemma presentation_check_after_scan (queues : list VkQueueFamilyProperties) i flag :
  presentation_scan support queues 0 None = (i, flag) ->
  presentation_check i (Z.of_nat (List.length queues)) flag = Ret false.
Proof.
  intros Hscan. change 0 with (uint32 0) in Hscan.
  apply presentation_scan_inv in Hscan.
  unfold presentation_check.
  destruct Hscan as [(b & -> & Hb) | (-> & _ & _)].
  - destruct (uint32 (i + 1) =? _); [| reflexivity].
    destruct (Z.eqb_spec b 0); [contradiction | reflexivity].
  - rewrite uint32_succ_idemp. simpl Z.add.
    destruct (Z.eqb_spec (uint32 (Z.of_nat (List.length queues) + 1))
                         (Z.of_nat (List.length queues))) as [E | _];
      [| reflexivity].
    apply uint32_succ_neq in E; [contradiction | lia].
Qed.

Lemma presentation_block_adds (queues : list VkQueueFamilyProperties) (score : Z) :
  presentation_block support queues score = Ret (add32 score 110000).
Proof.
  unfold presentation_block.
  destruct (presentation_scan support queues 0 None) as [i flag] eqn:Hscan.
  rewrite (presentation_check_after_scan _ _ _ Hscan). reflexivity.
Qed.

End PresentationScan.

(** ** RatePhysicalDevice *)

Lemma RatePhysicalDevice_invalid physicalDevice surface :
  handle physicalDevice = VK_NULL_HANDLE ->
  RatePhysicalDevice physicalDevice surface
  = Abort "\tInvalid Physical Device handle passed".
Proof.
  intros H. unfold RatePhysicalDevice.
  rewrite (CheckValidHandle_false _ H). reflexivity.
Qed.

Lemma RatePhysicalDevice_valid physicalDevice surface :
  handle physicalDevice <> VK_NULL_HANDLE ->
  RatePhysicalDevice physicalDevice surface
  = Ret (rated_score physicalDevice surface).
Proof.
  intros H.
  unfold RatePhysicalDevice, GetPhysicalDeviceProperties,
    GetPhysicalDeviceMemoryProperties, GetPhysicalDeviceFeatures,
    GetPhysicalDeviceQueueFamilyProperties, EnumerateDeviceExtensionNames.
  rewrite (CheckValidHandle_true _ H). cbn [ASSERT bind].
  unfold rated_score. fold (base_score physicalDevice).
  destruct (negb (surface =? VK_NULL_HANDLE)).
  - rewrite presentation_block_adds. cbn [bind].
    destruct (negb (swapchain_scan _ false));
      destruct (drv_presentModeCount physicalDevice surface =? 0);
      destruct (drv_formatCount physicalDevice surface =? 0); reflexivity.
  - reflexivity.
Qed.

Lemma RatePhysicalDevice_cases physicalDevice surface :
  (handle physicalDevice = VK_NULL_HANDLE /\
   RatePhysicalDevice physicalDevice surface
   = Abort "\tInvalid Physical Device handle passed") \/
  (handle physicalDevice <> VK_NULL_HANDLE /\
   RatePhysicalDevice physicalDevice surface
   = Ret (rated_score physicalDevice surface)).
Proof.
  destruct (Z.eq_dec (handle physicalDevice) VK_NULL_HANDLE) as [E | N].
  - left. split; [exact E | now apply RatePhysicalDevice_invalid].
  - right. split; [exact N | now apply RatePhysicalDevice_valid].
Qed.

Lemma swapchain_scan_true (extensions : list string) :
  swapchain_scan extensions true = true.
Proof.
  induction extensions as [| e rest IH]; simpl; [reflexivity |].
  destruct (String.eqb e VK_KHR_SWAPCHAIN_EXTENSION_NAME); exact IH.
Qed.

Lemma swapchain_scan_In (extensions : list string) :
  swapchain_scan extensions false = true <->
  In VK_KHR_SWAPCHAIN_EXTENSION_NAME extensions.
Proof.
  induction extensions as [| e rest IH]; simpl.
  - split; [discriminate | contradiction].
  - destruct (String.eqb_spec e VK_KHR_SWAPCHAIN_EXTENSION_NAME) as [E | N].
    + split; [intros _; now left | intros _; apply swapchain_scan_true].
    + rewrite IH. split; [now right | intros [E | H]; [contradiction | exact H]].
Qed.

(** C3. The device [offscreen_device] has no queue family that presents to
    the surface [1]; its swapchain extension name is read back intact, as
    the second name of the freed vector. [RatePhysicalDevice] rates it for
    that surface with the presentation bonus added instead of the score 0:
    the test [i+1 == queues.size()] fails once the loop has counted every
    family. *)
Theorem RatePhysicalDevice_no_presenting_family :
  (forall i, drv_surfaceSupport offscreen_device 1 i = VK_FALSE) /\
  mem_extensionNames offscreen_device
  = [ overwritten_bytes; VK_KHR_SWAPCHAIN_EXTENSION_NAME ] /\
  presentation_scan (drv_surfaceSupport offscreen_device 1)
                    (drv_queueFamilies offscreen_device) 0 None
  = (1, Some VK_FALSE) /\
  RatePhysicalDevice offscreen_device VK_NULL_HANDLE = Ret 16516580 /\
  RatePhysicalDevice offscreen_device 1 = Ret (16516580 + 110000).
Proof.
  split; [intros i; reflexivity |].
  split; [reflexivity |].
  split; [reflexivity |].
  split; vm_compute; reflexivity.
Qed.

(** For every valid device, the value returned for a surface does not
    depend on what the families answer about presentation. *)
Lemma RatePhysicalDevice_presentation_bonus physicalDevice surface :
  handle physicalDevice <> VK_NULL_HANDLE ->
  surface <> VK_NULL_HANDLE ->
  In VK_KHR_SWAPCHAIN_EXTENSION_NAME (mem_extensionNames physicalDevice) ->
  drv_presentModeCount physicalDevice surface <> 0 ->
  drv_formatCount physicalDevice surface <> 0 ->
  RatePhysicalDevice physicalDevice surface
  = Ret (add32 (base_score physicalDevice) 110000).
Proof.
  intros Hh Hs Hext Hpm Hf.
  rewrite RatePhysicalDevice_valid by exact Hh. unfold rated_score.
  apply swapchain_scan_In in Hext. rewrite Hext.
  destruct (Z.eqb_spec surface VK_NULL_HANDLE); [contradiction |].
  destruct (Z.eqb_spec (drv_formatCount physicalDevice surface) 0);
    [contradiction |].
  destruct (Z.eqb_spec (drv_presentModeCount physicalDevice surface) 0);
    [contradiction |].
  reflexivity.
Qed.

Lemma read_after_free_swapchain (names read : list string) :
  read_after_free names read ->
  In VK_KHR_SWAPCHAIN_EXTENSION_NAME read ->
  In VK_KHR_SWAPCHAIN_EXTENSION_NAME names.
Proof.
  induction 1 as [| name r names read Hr _ IH]; intros Hin; [destruct Hin |].
  destruct Hin as [E | Hin].
  - destruct Hr as [Hr | Hr]; [left; congruence | contradiction].
  - right. now apply IH.
Qed.



(** ** The unassigned flag of the surface block *)

(** C9, refuted as stated: no input makes the test after the loop read the
    flag while nothing was stored in it, neither in the surface block alone
    nor in a call of [RatePhysicalDevice]. *)
Lemma presentation_flag_never_read_unassigned :
  ~ (exists support queues score,
        presentation_block support queues score = UndefinedRead) /\
  ~ (exists physicalDevice surface,
        RatePhysicalDevice physicalDevice surface = UndefinedRead).
Proof.
  split.
  - intros (support & queues & score & H).
    rewrite presentation_block_adds in H. discriminate.
  - intros (physicalDevice & surface & H).
    destruct (RatePhysicalDevice_cases physicalDevice surface)
      as [(_ & E) | (_ & E)]; rewrite E in H; discriminate.
Qed.

(** C9, amended. After the loop the flag is unassigned exactly when the
    device has no queue family; the test after the loop is false on every
    input, so that it never reads an unassigned flag; and when no family
    presents to the surface its left operand [i+1 == queues.size()] is
    already false, so that the flag is not read at all. *)
Theorem presentation_flag_read_only_when_assigned
        (support : Z -> VkBool32) (queues : list VkQueueFamilyProperties) :
  let r := presentation_scan support queues 0 None in
  (snd r = None <-> queues = []) /\
  presentation_check (fst r) (Z.of_nat (List.length queues)) (snd r) = Ret false /\
  ((forall j, 0 <= j < Z.of_nat (List.length queues) -> support (uint32 j) = 0) ->
   (uint32 (fst r + 1) =? Z.of_nat (List.length queues)) = false).
Proof.
  intros r. split; [apply presentation_scan_flag_none |]. split.
  - apply (presentation_check_after_scan support). subst r.
    now destruct (presentation_scan support queues 0 None).
  - intros Hnone. subst r. change 0 with (uint32 0) at 1.
    rewrite presentation_scan_none_found by (try lia; exact Hnone).
    rewrite uint32_succ_idemp. simpl Z.add.
    apply Z.eqb_neq. apply uint32_succ_neq. lia.
Qed.

Lemma presentation_flag_read_only_when_assigned_witness :
  (uint32 (fst (presentation_scan (fun _ => VK_FALSE)
                                  [{| queueFlags := 1 |}; {| queueFlags := 2 |}]
                                  0 None) + 1) =? 2) = false.
Proof.
  apply (proj2 (proj2 (presentation_flag_read_only_when_assigned
                         (fun _ => VK_FALSE)
                         [{| queueFlags := 1 |}; {| queueFlags := 2 |}]))).
  intros j _. reflexivity.
Defined.

(** The two situations in which the loop finds nothing. *)
Example presentation_scan_no_family :
  presentation_scan (fun _ => VK_TRUE) [] 0 None = (0, None) /\
  presentation_check 0 0 None = Ret false.
Proof. split; reflexivity. Qed.

Example presentation_scan_one_family_unsupported :
  presentation_scan (fun _ => VK_FALSE) [{| queueFlags := 1 |}] 0 None
  = (1, Some VK_FALSE) /\
  presentation_check 1 1 (Some VK_FALSE) = Ret false.
Proof. split; reflexivity. Qed.

(** ** The graphics and compute bonuses *)

(** C5, refuted as stated: with two graphics-capable families the loop
    adds the graphics bonus twice, where one fixed bonus for the presence of
    such a family was stated. *)
Lemma queue_scan_not_by_presence :
  queue_scan two_graphics_families 0 = 200000 /\
  queue_bonus_when_any two_graphics_families 0 = 100000 /\
  queue_scan two_graphics_families 0
  <> queue_bonus_when_any two_graphics_families 0.
Proof. repeat split. vm_compute. discriminate. Qed.

Lemma uint32_add_idemp (a b : Z) : uint32 (uint32 a + b) = uint32 (a + b).
Proof. unfold uint32. apply Zplus_mod_idemp_l. Qed.

(** C5, amended. The loop adds 100000 for each graphics-capable family and
    50000, half of it, for each compute-capable family, modulo [2^32]. *)
Theorem queue_scan_per_family (queues : list VkQueueFamilyProperties) (score : Z) :
  0 <= score < 2 ^ 32 ->
  queue_scan queues score
  = uint32 (score + 100000 * count_families graphics_capable queues
                  + 50000 * count_families compute_capable queues)
  /\ 50000 * 2 = 100000.
Proof.
  intros Hs. split; [| reflexivity]. revert score Hs.
  induction queues as [| q rest IH]; intros score Hs.
  - unfold count_families. simpl. rewrite !Z.add_0_r.
    now rewrite uint32_small.
  - simpl queue_scan. unfold count_families in *. simpl filter.
    fold (graphics_capable q). fold (compute_capable q).
    destruct (graphics_capable q); destruct (compute_capable q);
      rewrite IH; try apply add32_range; try exact Hs;
      simpl List.length; unfold add32; rewrite ?Nat2Z.inj_succ;
      repeat (rewrite <- ?Z.add_assoc; rewrite uint32_add_idemp);
      f_equal; lia.
Qed.

Lemma queue_scan_per_family_witness :
  queue_scan two_graphics_families 7
  = uint32 (7 + 100000 * count_families graphics_capable two_graphics_families
              + 50000 * count_families compute_capable two_graphics_families)
  /\ 50000 * 2 = 100000.
Proof. apply (queue_scan_per_family two_graphics_families 7). lia. Defined.

(** ** SelectBestPhysicalDevice *)

Section SelectScan.

Variable surface : VkSurfaceKHR.

(** The loop never reads an unassigned value, and what it returns is
    either what it started from or a device of the list rated strictly
    above the starting score. *)
Lemma select_scan_result (physicalDeviceList : list VkPhysicalDevice) :
  forall score selected,
    select_scan surface physicalDeviceList score selected <> UndefinedRead /\
    forall score' selected',
      select_scan surface physicalDeviceList score selected
      = Ret (score', selected') ->
      (score' = score /\ selected' = selected /\
       forall pd n, In pd physicalDeviceList ->
                    RatePhysicalDevice pd surface = Ret n -> n <= score) \/
      (exists best,
          In best physicalDeviceList /\ selected' = Some best /\
          RatePhysicalDevice best surface = Ret score' /\ score < score').
Proof.
  induction physicalDeviceList as [| pd rest IH]; intros score selected.
  - simpl. split; [discriminate |].
    intros score' selected' H. inversion H; subst. left.
    repeat split. intros pd n [].
  - simpl.
    destruct (RatePhysicalDevice_cases pd surface) as [(_ & E) | (_ & E)];
      rewrite E; cbn [bind].
    + split; discriminate.
    + set (newScore := rated_score pd surface) in *.
      destruct (Z.ltb_spec score newScore) as [Hlt | Hge].
      * destruct (IH newScore (Some pd)) as [Hu Hr].
        split; [exact Hu |].
        intros score' selected' H. right.
        destruct (Hr _ _ H) as [(-> & -> & _) | (best & Hin & -> & Hb & Hlt')].
        -- exists pd. split; [now left |]. split; [reflexivity |].
           split; [exact E | exact Hlt].
        -- exists best. split; [now right |]. split; [reflexivity |].
           split; [exact Hb | lia].
      * destruct (IH score selected) as [Hu Hr].
        split; [exact Hu |].
        intros score' selected' H.
        destruct (Hr _ _ H) as [(-> & -> & Hall) | (best & Hin & -> & Hb & Hlt')].
        -- left. repeat split. intros pd' n [<- | Hin] Hn.
           ++ rewrite E in Hn. inversion Hn; subst. exact Hge.
           ++ eapply Hall; eauto.
        -- right. exists best. split; [now right |]. split; [reflexivity |].
           split; [exact Hb | exact Hlt'].
Qed.

(** On valid handles the loop ends, and its result is the first device
    that reaches the greatest score above the starting one. *)
Lemma select_scan_first_best (physicalDeviceList : list VkPhysicalDevice) :
  Forall valid_device physicalDeviceList ->
  forall score selected,
  exists score' selected',
    select_scan surface physicalDeviceList score selected
    = Ret (score', selected') /\
    ((score' = score /\ selected' = selected /\
      forall pd n, In pd physicalDeviceList ->
                   RatePhysicalDevice pd surface = Ret n -> n <= score) \/
     (exists before best after,
         physicalDeviceList = before ++ best :: after /\
         selected' = Some best /\
         RatePhysicalDevice best surface = Ret score' /\
         score < score' /\
         (forall pd n, In pd before ->
                       RatePhysicalDevice pd surface = Ret n -> n < score') /\
         (forall pd n, In pd after ->
                       RatePhysicalDevice pd surface = Ret n -> n <= score'))).
Proof.
  induction 1 as [| pd rest Hpd Hrest IH]; intros score selected.
  - exists score, selected. split; [reflexivity |]. left.
    repeat split. intros pd n [].
  - simpl. pose proof (RatePhysicalDevice_valid pd surface Hpd) as E.
    rewrite E. cbn [bind].
    set (newScore := rated_score pd surface) in *.
    destruct (Z.ltb_spec score newScore) as [Hlt | Hge].
    + destruct (IH newScore (Some pd)) as (score' & selected' & Hscan & Hr).
      exists score', selected'. split; [exact Hscan |]. right.
      destruct Hr as [(-> & -> & Hall)
                     | (before & best & after & -> & -> & Hb & Hlt' & Hbef & Haft)].
      * exists [], pd, rest. split; [reflexivity |]. split; [reflexivity |].
        split; [exact E |]. split; [exact Hlt |].
        split; [intros ? ? [] | exact Hall].
      * exists (pd :: before), best, after.
        split; [reflexivity |]. split; [reflexivity |].
        split; [exact Hb |]. split; [lia |]. split; [| exact Haft].
        intros pd' n [<- | Hin] Hn.
        -- rewrite E in Hn. inversion Hn; subst. exact Hlt'.
        -- eapply Hbef; eauto.
    + destruct (IH score selected) as (score' & selected' & Hscan & Hr).
      exists score', selected'. split; [exact Hscan |].
      destruct Hr as [(-> & -> & Hall)
                     | (before & best & after & -> & -> & Hb & Hlt' & Hbef & Haft)].
      * left. repeat split. intros pd' n [<- | Hin] Hn.
        -- rewrite E in Hn. inversion Hn; subst. exact Hge.
        -- eapply Hall; eauto.
      * right. exists (pd :: before), best, after.
        split; [reflexivity |]. split; [reflexivity |].
        split; [exact Hb |]. split; [exact Hlt' |]. split; [| exact Haft].
        intros pd' n [<- | Hin] Hn.
        -- rewrite E in Hn. inversion Hn; subst. lia.
        -- eapply Hbef; eauto.
Qed.

End SelectScan.

(** C1. For an instance with a valid handle whose devices have valid
    handles, when some device is rated above zero the selection returns a
    device [best] of the list with a score above zero, every device listed
    before it is rated strictly lower and every device listed after it is
    rated at most as high: the running best starts at zero, is replaced
    only by a strictly greater score, and the first device that reaches the
    greatest score is the one returned. *)
Theorem SelectBestPhysicalDevice_first_best
        (instance : VkInstance) (surface : VkSurfaceKHR) :
  instance_handle instance <> VK_NULL_HANDLE ->
  Forall valid_device (drv_physicalDevices instance) ->
  (exists pd n, In pd (drv_physicalDevices instance) /\
                RatePhysicalDevice pd surface = Ret n /\ 0 < n) ->
  exists before best after score,
    drv_physicalDevices instance = before ++ best :: after /\
    SelectBestPhysicalDevice instance surface = Ret best /\
    RatePhysicalDevice best surface = Ret score /\
    0 < score /\
    (forall pd n, In pd before ->
                  RatePhysicalDevice pd surface = Ret n -> n < score) /\
    (forall pd n, In pd after ->
                  RatePhysicalDevice pd surface = Ret n -> n <= score).
Proof.
  intros Hinst Hvalid (pd0 & n0 & Hin0 & Hn0 & Hpos).
  unfold SelectBestPhysicalDevice, EnumeratePhysicalDevices.
  rewrite (CheckValidHandle_true _ Hinst). cbn [ASSERT bind].
  destruct (drv_physicalDevices instance) as [| d ds] eqn:Hlist;
    [destruct Hin0 |].
  rewrite <- Hlist in *.
  replace (0 <? Z.of_nat (List.length (drv_physicalDevices instance))) with true
    by (rewrite Hlist; reflexivity).
  cbn [ASSERT bind].
  destruct (select_scan_first_best surface _ Hvalid 0 None)
    as (score' & selected' & Hscan & Hr).
  rewrite Hscan. cbn [bind].
  destruct Hr as [(-> & -> & Hall)
                 | (before & best & after & Hsplit & -> & Hb & Hlt & Hbef & Haft)].
  - specialize (Hall _ _ Hin0 Hn0). lia.
  - exists before, best, after, score'.
    destruct (Z.eqb_spec score' 0) as [E | _]; [lia |]. cbn [negb ASSERT bind].
    unfold GetPhysicalDeviceProperties.
    assert (valid_device best) as Hbest.
    { rewrite Forall_forall in Hvalid. apply Hvalid.
      rewrite Hsplit. apply in_or_app. right. now left. }
    rewrite (CheckValidHandle_true _ Hbest). cbn [ASSERT bind].
    split; [exact Hsplit |]. split; [reflexivity |].
    split; [exact Hb |]. split; [exact Hlt |]. split; [exact Hbef | exact Haft].
Qed.

(** The second and third devices of [tie_instance] have the same, greatest
    score; the second one is returned. *)
Example SelectBestPhysicalDevice_tie :
  map (fun pd => RatePhysicalDevice pd 1) (drv_physicalDevices tie_instance)
  = [Ret 0; Ret 16676580; Ret 16676580; Ret 16576580] /\
  SelectBestPhysicalDevice tie_instance 1
  = Ret (sample_device 4097 [3] (fun _ => VK_TRUE) with_swapchain 3 2).
Proof. split; vm_compute; reflexivity. Qed.

Lemma SelectBestPhysicalDevice_first_best_witness :
  exists before best after score,
    drv_physicalDevices tie_instance = before ++ best :: after /\
    SelectBestPhysicalDevice tie_instance 1 = Ret best /\
    RatePhysicalDevice best 1 = Ret score /\
    0 < score /\
    (forall pd n, In pd before -> RatePhysicalDevice pd 1 = Ret n -> n < score) /\
    (forall pd n, In pd after -> RatePhysicalDevice pd 1 = Ret n -> n <= score).
Proof.
  apply (SelectBestPhysicalDevice_first_best tie_instance 1).
  - vm_compute. discriminate.
  - repeat constructor; vm_compute; discriminate.
  - exists (sample_device 4099 [2] (fun _ => VK_TRUE) with_swapchain 3 2),
      16576580.
    split; [simpl; tauto |]. split; [vm_compute; reflexivity | lia].
Defined.

(** The two assertions passed before the scan of [SelectBestPhysicalDevice];
    the goals in which one of them fails are left to [tac]. *)
Ltac enter_selection instance tac :=
  destruct (CheckValidHandle (instance_handle instance));
  cbn [ASSERT bind]; [| tac];
  destruct (0 <? Z.of_nat (List.length (drv_physicalDevices instance)));
  cbn [ASSERT bind]; [| tac].

(** C2. The selection never returns a device rated zero and never reads the
    unassigned [selectedPhysicalDevice]: a returned device belongs to the
    list and is rated above zero. When every device of the list is rated
    zero (also when the list is empty) the selection ends in [exit(-1)]
    through a failed [ASSERT]; for a valid instance and a non-empty list of
    valid handles it is the assertion [score != 0], with its message. *)
Theorem SelectBestPhysicalDevice_none_suitable
        (instance : VkInstance) (surface : VkSurfaceKHR) :
  (forall best,
      SelectBestPhysicalDevice instance surface = Ret best ->
      In best (drv_physicalDevices instance) /\
      exists score, RatePhysicalDevice best surface = Ret score /\ 0 < score) /\
  SelectBestPhysicalDevice instance surface <> UndefinedRead /\
  ((forall pd n, In pd (drv_physicalDevices instance) ->
                 RatePhysicalDevice pd surface = Ret n -> n = 0) ->
   (exists msg, SelectBestPhysicalDevice instance surface = Abort msg) /\
   (instance_handle instance <> VK_NULL_HANDLE ->
    drv_physicalDevices instance <> [] ->
    Forall valid_device (drv_physicalDevices instance) ->
    SelectBestPhysicalDevice instance surface
    = Abort "No suitable Physical Device found on host\n")).
Proof.
  pose proof (select_scan_result surface (drv_physicalDevices instance) 0 None)
    as [Hu Hr].
  unfold SelectBestPhysicalDevice, EnumeratePhysicalDevices,
    GetPhysicalDeviceProperties.
  split; [| split].
  - intros best.
    enter_selection instance ltac:(discriminate).
    destruct (select_scan surface (drv_physicalDevices instance) 0 None)
      as [[score selected] | msg |]; cbn [bind]; [| discriminate | discriminate].
    destruct (Hr _ _ eq_refl) as [(-> & -> & _) | (b & Hin & -> & Hb & Hlt)].
    + cbn. discriminate.
    + destruct (Z.eqb_spec score 0) as [E | _]; [lia |]. cbn [negb ASSERT bind].
      destruct (CheckValidHandle (handle b)); cbn [ASSERT bind]; [| discriminate].
      intros H. inversion H; subst. split; [exact Hin |].
      exists score. split; [exact Hb | exact Hlt].
  - enter_selection instance ltac:(discriminate).
    destruct (select_scan surface (drv_physicalDevices instance) 0 None)
      as [[score selected] | msg |]; cbn [bind];
      [| discriminate | contradiction].
    destruct (Hr _ _ eq_refl) as [(-> & -> & _) | (b & Hin & -> & Hb & Hlt)].
    + cbn. discriminate.
    + destruct (Z.eqb_spec score 0) as [E | _]; [lia |]. cbn [negb ASSERT bind].
      destruct (CheckValidHandle (handle b)); cbn [ASSERT bind]; discriminate.
  - intros Hzero. split.
    + enter_selection instance ltac:(eauto).
      destruct (select_scan surface (drv_physicalDevices instance) 0 None)
        as [[score selected] | msg |]; cbn [bind]; [| eauto | contradiction].
      destruct (Hr _ _ eq_refl) as [(-> & -> & _) | (b & Hin & -> & Hb & Hlt)].
      * cbn. eauto.
      * specialize (Hzero _ _ Hin Hb). lia.
    + intros Hinst Hne Hvalid.
      rewrite (CheckValidHandle_true _ Hinst). cbn [ASSERT bind].
      destruct (drv_physicalDevices instance) as [| d ds] eqn:Hlist;
        [contradiction |].
      rewrite <- Hlist in *.
      replace (0 <? Z.of_nat (List.length (drv_physicalDevices instance)))
        with true by (rewrite Hlist; reflexivity).
      cbn [ASSERT bind].
      destruct (select_scan_first_best surface _ Hvalid 0 None)
        as (score' & selected' & Hscan & Hfb).
      rewrite Hscan. cbn [bind].
      destruct Hfb as [(-> & -> & _)
                      | (before & b & after & Hsplit & -> & Hb & Hlt & _)].
      * reflexivity.
      * assert (In b (drv_physicalDevices instance)) as Hin
            by (rewrite Hsplit; apply in_or_app; right; now left).
        specialize (Hzero _ _ Hin Hb). lia.
Qed.

Lemma SelectBestPhysicalDevice_none_suitable_witness :
  SelectBestPhysicalDevice unsuitable_instance 1
  = Abort "No suitable Physical Device found on host\n".
Proof.
  apply (proj2 (proj2 (SelectBestPhysicalDevice_none_suitable unsuitable_instance 1))).
  - intros pd n [<- | [<- | []]] H; vm_compute in H; inversion H; reflexivity.
  - vm_compute. discriminate.
  - discriminate.
  - repeat constructor; vm_compute; discriminate.
Defined.

(** With no device at all the count assertion of [EnumeratePhysicalDevices]
    is the one that fails. *)
Example SelectBestPhysicalDevice_no_device :
  SelectBestPhysicalDevice {| instance_handle := 64; drv_physicalDevices := [] |} 1
  = Abort "\tNo Vulkan capable Physical Devices found on host\t".
Proof. reflexivity. Qed.

(** ** SelectSwapchainSurfaceFormat *)

Lemma preferred_format_test (f : VkSurfaceFormatKHR) :
  (format f =? VK_FORMAT_B8G8R8A8_SRGB)
  && (colorSpace f =? VK_COLOR_SPACE_SRGB_NONLINEAR_KHR) = true
  <-> f = preferred_format.
Proof.
  destruct f as [fmt cs]. unfold preferred_format. simpl.
  rewrite andb_true_iff, !Z.eqb_eq. split.
  - intros [-> ->]. reflexivity.
  - intros H. inversion H. split; reflexivity.
Qed.

Lemma format_scan_found (formats : list VkSurfaceFormatKHR) :
  In preferred_format formats -> format_scan formats = Some preferred_format.
Proof.
  induction formats as [| f rest IH]; intros Hin; [destruct Hin |].
  simpl.
  destruct ((format f =? VK_FORMAT_B8G8R8A8_SRGB)
            && (colorSpace f =? VK_COLOR_SPACE_SRGB_NONLINEAR_KHR)) eqn:E.
  - apply preferred_format_test in E. now subst.
  - destruct Hin as [-> | Hin]; [| now apply IH].
    assert (preferred_format = preferred_format) as H by reflexivity.
    apply preferred_format_test in H. congruence.
Qed.

Lemma format_scan_not_found (formats : list VkSurfaceFormatKHR) :
  ~ In preferred_format formats -> format_scan formats = None.
Proof.
  induction formats as [| f rest IH]; intros Hnin; [reflexivity |].
  simpl.
  destruct ((format f =? VK_FORMAT_B8G8R8A8_SRGB)
            && (colorSpace f =? VK_COLOR_SPACE_SRGB_NONLINEAR_KHR)) eqn:E.
  - apply preferred_format_test in E. subst. contradiction Hnin. now left.
  - apply IH. intros Hin. apply Hnin. now right.
Qed.

(** C6. On a non-empty list [first :: rest] the function returns the
    preferred pair when that pair occurs at any position of the list, and
    the element [first] as it is otherwise. *)
Theorem SelectSwapchainSurfaceFormat_preference
        (first : VkSurfaceFormatKHR) (rest : list VkSurfaceFormatKHR) :
  (In preferred_format (first :: rest) ->
   SelectSwapchainSurfaceFormat (first :: rest) = Ret preferred_format) /\
  (~ In preferred_format (first :: rest) ->
   SelectSwapchainSurfaceFormat (first :: rest) = Ret first).
Proof.
  unfold SelectSwapchainSurfaceFormat. split; intros H.
  - now rewrite (format_scan_found _ H).
  - now rewrite (format_scan_not_found _ H).
Qed.

Lemma SelectSwapchainSurfaceFormat_preference_witness :
  SelectSwapchainSurfaceFormat
    [ {| format := VK_FORMAT_R8G8B8A8_UNORM;
         colorSpace := VK_COLOR_SPACE_SRGB_NONLINEAR_KHR |};
      {| format := VK_FORMAT_B8G8R8A8_SRGB;
         colorSpace := VK_COLOR_SPACE_EXTENDED_SRGB_LINEAR_EXT |};
      preferred_format ]
  = Ret preferred_format
  /\
  SelectSwapchainSurfaceFormat
    [ {| format := VK_FORMAT_R8G8B8A8_UNORM;
         colorSpace := VK_COLOR_SPACE_EXTENDED_SRGB_LINEAR_EXT |} ]
  = Ret {| format := VK_FORMAT_R8G8B8A8_UNORM;
           colorSpace := VK_COLOR_SPACE_EXTENDED_SRGB_LINEAR_EXT |}.
Proof.
  split.
  - apply (proj1 (SelectSwapchainSurfaceFormat_preference _ _)).
    simpl. tauto.
  - apply (proj2 (SelectSwapchainSurfaceFormat_preference _ _)).
    simpl. intros [H | []]. discriminate.
Defined.

(** The first element of an empty vector does not exist. *)
Example SelectSwapchainSurfaceFormat_empty :
  SelectSwapchainSurfaceFormat [] = UndefinedRead.
Proof. reflexivity. Qed.

(** ** SelectSwapchainSurfacePresentMode *)

Lemma SelectSwapchainSurfacePresentMode_mailbox (presentModes : list Z) :
  In VK_PRESENT_MODE_MAILBOX_KHR presentModes ->
  SelectSwapchainSurfacePresentMode presentModes = VK_PRESENT_MODE_MAILBOX_KHR.
Proof.
  induction presentModes as [| mode rest IH]; intros Hin; [destruct Hin |].
  simpl. destruct (Z.eqb_spec mode VK_PRESENT_MODE_MAILBOX_KHR) as [E | N].
  - exact E.
  - destruct Hin as [E | Hin]; [congruence | now apply IH].
Qed.

Lemma SelectSwapchainSurfacePresentMode_fifo (presentModes : list Z) :
  ~ In VK_PRESENT_MODE_MAILBOX_KHR presentModes ->
  SelectSwapchainSurfacePresentMode presentModes = VK_PRESENT_MODE_FIFO_KHR.
Proof.
  induction presentModes as [| mode rest IH]; intros Hnin; [reflexivity |].
  simpl. destruct (Z.eqb_spec mode VK_PRESENT_MODE_MAILBOX_KHR) as [E | N].
  - contradiction Hnin. now left.
  - apply IH. intros Hin. apply Hnin. now right.
Qed.

(** C7. The function returns the mailbox mode when it occurs in the list
    and the FIFO mode otherwise; two lists that are permutations of each
    other give the same result. *)
Theorem SelectSwapchainSurfacePresentMode_preference (presentModes : list Z) :
  (In VK_PRESENT_MODE_MAILBOX_KHR presentModes ->
   SelectSwapchainSurfacePresentMode presentModes = VK_PRESENT_MODE_MAILBOX_KHR) /\
  (~ In VK_PRESENT_MODE_MAILBOX_KHR presentModes ->
   SelectSwapchainSurfacePresentMode presentModes = VK_PRESENT_MODE_FIFO_KHR) /\
  (forall reordered,
      Permutation presentModes reordered ->
      SelectSwapchainSurfacePresentMode reordered
      = SelectSwapchainSurfacePresentMode presentModes).
Proof.
  split; [apply SelectSwapchainSurfacePresentMode_mailbox |].
  split; [apply SelectSwapchainSurfacePresentMode_fifo |].
  intros reordered Hperm.
  destruct (in_dec Z.eq_dec VK_PRESENT_MODE_MAILBOX_KHR presentModes) as [Hin | Hnin].
  - rewrite (SelectSwapchainSurfacePresentMode_mailbox _ Hin).
    apply SelectSwapchainSurfacePresentMode_mailbox.
    now apply (Permutation_in _ Hperm).
  - rewrite (SelectSwapchainSurfacePresentMode_fifo _ Hnin).
    apply SelectSwapchainSurfacePresentMode_fifo.
    intros Hin. apply Hnin.
    now apply (Permutation_in _ (Permutation_sym Hperm)).
Qed.

Lemma SelectSwapchainSurfacePresentMode_preference_witness :
  SelectSwapchainSurfacePresentMode
    [VK_PRESENT_MODE_FIFO_KHR; VK_PRESENT_MODE_IMMEDIATE_KHR;
     VK_PRESENT_MODE_MAILBOX_KHR] = VK_PRESENT_MODE_MAILBOX_KHR
  /\
  SelectSwapchainSurfacePresentMode
    [VK_PRESENT_MODE_IMMEDIATE_KHR; VK_PRESENT_MODE_FIFO_RELAXED_KHR]
  = VK_PRESENT_MODE_FIFO_KHR
  /\
  SelectSwapchainSurfacePresentMode
    [VK_PRESENT_MODE_MAILBOX_KHR; VK_PRESENT_MODE_FIFO_KHR]
  = SelectSwapchainSurfacePresentMode
      [VK_PRESENT_MODE_FIFO_KHR; VK_PRESENT_MODE_MAILBOX_KHR].
Proof.
  split; [| split].
  - apply (proj1 (SelectSwapchainSurfacePresentMode_preference _)).
    simpl. tauto.
  - apply (proj1 (proj2 (SelectSwapchainSurfacePresentMode_preference _))).
    simpl. intros [H | [H | []]]; discriminate.
  - apply (proj2 (proj2 (SelectSwapchainSurfacePresentMode_preference _))).
    apply perm_swap.
Defined.

(** ** SelectSwapchainSurfaceImageExtent *)

Lemma clamp_range (lo hi x : Z) :
  lo <= hi ->
  lo <= clamp lo hi x <= hi /\
  (lo <= x <= hi -> clamp lo hi x = x) /\
  (x < lo -> clamp lo hi x = lo) /\
  (hi < x -> clamp lo hi x = hi) /\
  clamp lo hi x = Z.min hi (Z.max lo x).
Proof. unfold clamp. lia. Qed.

(** C8. When the width of the current extent is not [UINT32_MAX] the
    function returns the current extent, whatever the window. Otherwise
    the result is the size of the window, converted to [uint32], with
    width and height each clamped by the matching fields of the minimum
    and maximum extents; when the minimum does not exceed the maximum the
    result lies between them, bounds included, equals the window size when
    that already lies between them, and is the same whichever bound is
    applied first. *)
Theorem SelectSwapchainSurfaceImageExtent_clamped
        (window : SDL_Window) (capabilities : VkSurfaceCapabilitiesKHR) :
  let result := SelectSwapchainSurfaceImageExtent window capabilities in
  let lo := minImageExtent capabilities in
  let hi := maxImageExtent capabilities in
  (width (currentExtent capabilities) <> UINT32_MAX ->
   result = currentExtent capabilities) /\
  (width (currentExtent capabilities) = UINT32_MAX ->
   width result = clamp (width lo) (width hi) (uint32 (window_w window)) /\
   height result = clamp (height lo) (height hi) (uint32 (window_h window)) /\
   (width lo <= width hi ->
    width lo <= width result <= width hi /\
    (width lo <= uint32 (window_w window) <= width hi ->
     width result = uint32 (window_w window)) /\
    width result = Z.min (width hi) (Z.max (width lo) (uint32 (window_w window)))) /\
   (height lo <= height hi ->
    height lo <= height result <= height hi /\
    (height lo <= uint32 (window_h window) <= height hi ->
     height result = uint32 (window_h window)) /\
    height result
    = Z.min (height hi) (Z.max (height lo) (uint32 (window_h window))))).
Proof.
  intros result lo hi. subst result lo hi.
  unfold SelectSwapchainSurfaceImageExtent.
  destruct (Z.eqb_spec (width (currentExtent capabilities)) UINT32_MAX) as [E | N];
    cbn [negb].
  - split; [intros H; contradiction |]. intros _. cbn [width height].
    fold (clamp (width (minImageExtent capabilities))
                (width (maxImageExtent capabilities))
                (uint32 (window_w window))).
    fold (clamp (height (minImageExtent capabilities))
                (height (maxImageExtent capabilities))
                (uint32 (window_h window))).
    split; [reflexivity |]. split; [reflexivity |].
    split; intros Hle.
    + destruct (clamp_range _ _ (uint32 (window_w window)) Hle)
        as (Hr & Hid & _ & _ & Hsw).
      split; [exact Hr | split; [exact Hid | exact Hsw]].
    + destruct (clamp_range _ _ (uint32 (window_h window)) Hle)
        as (Hr & Hid & _ & _ & Hsw).
      split; [exact Hr | split; [exact Hid | exact Hsw]].
  - split; [reflexivity |]. intros H; contradiction.
Qed.

Lemma SelectSwapchainSurfaceImageExtent_clamped_witness :
  1 <= width (SelectSwapchainSurfaceImageExtent
                {| window_w := 1920; window_h := 1080 |}
                undefined_extent_capabilities) <= 1024.
Proof.
  apply (proj2 (SelectSwapchainSurfaceImageExtent_clamped
                  {| window_w := 1920; window_h := 1080 |}
                  undefined_extent_capabilities)).
  - reflexivity.
  - simpl. lia.
Defined.

(** The two examples of the specification. *)
Example SelectSwapchainSurfaceImageExtent_1920_1080 :
  SelectSwapchainSurfaceImageExtent {| window_w := 1920; window_h := 1080 |}
                                    undefined_extent_capabilities
  = {| width := 1024; height := 1024 |}.
Proof. reflexivity. Qed.

Example SelectSwapchainSurfaceImageExtent_800_600 :
  SelectSwapchainSurfaceImageExtent
    {| window_w := 1920; window_h := 1080 |}
    {| currentExtent := {| width := 800; height := 600 |};
       minImageExtent := {| width := 1; height := 1 |};
       maxImageExtent := {| width := 640; height := 480 |} |}
  = {| width := 800; height := 600 |}.
Proof. reflexivity. Qed.

(** ** The queue family indices *)

Lemma land_single_bit (x k : Z) :
  0 <= k -> Z.land x (2 ^ k) = if Z.testbit x k then 2 ^ k else 0.
Proof.
  intros Hk. apply Z.bits_inj'. intros n Hn.
  rewrite Z.land_spec, Z.pow2_bits_eqb by exact Hk.
  destruct (Z.eqb_spec k n) as [<- | N].
  - destruct (Z.testbit x k); simpl.
    + rewrite Z.pow2_bits_eqb by exact Hk. now rewrite Z.eqb_refl.
    + now rewrite Z.bits_0.
  - rewrite andb_false_r.
    destruct (Z.testbit x k).
    + rewrite Z.pow2_bits_eqb by exact Hk.
      symmetry. now apply Z.eqb_neq.
    + now rewrite Z.bits_0.
Qed.

Lemma flag_test_includes (k : Z) (family : VkQueueFamilyProperties) :
  0 <= k ->
  flag_test (2 ^ k) family = true <-> includes_flag (queueFlags family) (2 ^ k).
Proof.
  intros Hk. unfold flag_test, includes_flag.
  rewrite (land_single_bit _ _ Hk).
  assert (2 ^ k <> 0) as Hnz by (apply Z.pow_nonzero; lia).
  destruct (Z.testbit (queueFlags family) k).
  - destruct (Z.eqb_spec (2 ^ k) 0); [contradiction | tauto].
  - simpl. split; [discriminate | congruence].
Qed.

Lemma family_at_cons (q : VkQueueFamilyProperties) rest (j : Z) :
  0 < j -> family_at (q :: rest) j = family_at rest (j - 1).
Proof.
  intros Hj. unfold family_at.
  destruct (Z.ltb_spec j 0); [lia |].
  destruct (Z.ltb_spec (j - 1) 0); [lia |].
  replace (Z.to_nat j) with (S (Z.to_nat (j - 1))) by lia. reflexivity.
Qed.

Section QueueIndexScan.

Variable flag : Z.

(** The loop started at position [k]: when some family from there on
    passes the test, the result is the position of the last one. *)
Lemma queue_index_scan_last (families : list VkQueueFamilyProperties) :
  forall (k queueIdx : Z),
    0 <= k ->
    k + Z.of_nat (List.length families) <= 2 ^ 31 ->
    let r := queue_index_scan families flag (uint32 k) queueIdx in
    if existsb (flag_test flag) families then
      k <= r < k + Z.of_nat (List.length families) /\
      (exists q, family_at families (r - k) = Some q /\ flag_test flag q = true) /\
      (forall j q, r - k < j -> family_at families j = Some q ->
                   flag_test flag q = false)
    else r = queueIdx.
Proof.
  induction families as [| q rest IH]; intros k queueIdx Hk Hlen; simpl.
  - reflexivity.
  - simpl List.length in Hlen. rewrite Nat2Z.inj_succ in Hlen.
    rewrite uint32_succ_idemp.
    rewrite (uint32_small k) by lia. rewrite (to_int_small k) by lia.
    fold (flag_test flag q).
    specialize (IH (k + 1)
                   (if flag_test flag q then k else queueIdx)
                   ltac:(lia) ltac:(lia)).
    simpl in IH.
    set (r := queue_index_scan rest flag (uint32 (k + 1))
                               (if flag_test flag q then k else queueIdx)) in *.
    destruct (existsb (flag_test flag) rest) eqn:Hex.
    + rewrite orb_true_r.
      destruct IH as (Hr & (q' & Hq' & Ht) & Hlast).
      split; [lia |]. split.
      * exists q'. rewrite family_at_cons by lia.
        replace (r - k - 1) with (r - (k + 1)) by lia. now split.
      * intros j q'' Hj Hq''. rewrite family_at_cons in Hq'' by lia.
        apply (Hlast (j - 1)); [lia | exact Hq''].
    + rewrite orb_false_r.
      destruct (flag_test flag q) eqn:Hq.
      * rewrite IH. split; [lia |]. split.
        -- exists q. rewrite Z.sub_diag. now split.
        -- rewrite Z.sub_diag. intros j q'' Hj Hq''.
           rewrite family_at_cons in Hq'' by lia.
           unfold family_at in Hq''.
           destruct (j - 1 <? 0); [discriminate |].
           apply nth_error_In in Hq''.
           destruct (flag_test flag q'') eqn:Hq2; [| reflexivity].
           assert (existsb (flag_test flag) rest = true) as Hex'
               by (apply existsb_exists; exists q''; now split).
           congruence.
      * exact IH.
Qed.

End QueueIndexScan.

Section SurfaceIndexScan.

Variable support : Z -> VkBool32.

(** The loop started at position [k]: the result is the first position
    from there on whose family presents to the surface. *)
Lemma surface_index_scan_first (queues : list VkQueueFamilyProperties) :
  forall (k presentationQueueIdx : Z),
    0 <= k ->
    k + Z.of_nat (List.length queues) <= 2 ^ 31 ->
    let r := surface_index_scan support queues (uint32 k) presentationQueueIdx in
    ((forall j, k <= j < k + Z.of_nat (List.length queues) -> support j = 0) ->
     r = presentationQueueIdx) /\
    ((exists j, k <= j < k + Z.of_nat (List.length queues) /\ support j <> 0) ->
     k <= r < k + Z.of_nat (List.length queues) /\ support r <> 0 /\
     forall j, k <= j < r -> support j = 0).
Proof.
  induction queues as [| q rest IH]; intros k idx Hk Hlen; simpl.
  - split; [reflexivity |]. intros (j & Hj & _). lia.
  - simpl List.length in Hlen. rewrite Nat2Z.inj_succ in *.
    rewrite uint32_succ_idemp.
    rewrite (uint32_small k) by lia. rewrite (to_int_small k) by lia.
    destruct (Z.eqb_spec (support k) 0) as [E | N]; simpl.
    + destruct (IH (k + 1) idx ltac:(lia) ltac:(lia)) as [Hnone Hsome].
      split.
      * intros Hall. apply Hnone. intros j Hj. apply Hall. lia.
      * intros (j & Hj & Hsup).
        assert (j <> k) by congruence.
        destruct Hsome as (Hr & Hsr & Hbefore).
        { exists j. split; [lia | exact Hsup]. }
        split; [lia |]. split; [exact Hsr |].
        intros j' Hj'. destruct (Z.eq_dec j' k) as [-> | Hne];
          [exact E | apply Hbefore; lia].
    + split.
      * intros Hall. contradiction N. apply Hall. lia.
      * intros _. split; [lia |]. split; [exact N |]. intros j Hj. lia.
Qed.

End SurfaceIndexScan.

Lemma family_at_In (families : list VkQueueFamilyProperties) (j : Z) q :
  family_at families j = Some q -> In q families.
Proof.
  unfold family_at. destruct (j <? 0); [discriminate |]. apply nth_error_In.
Qed.

(** C10. For a capability flag [2^k] and a list of at most [2^31]
    families, [GetPhysicalDeviceQueueFamilyIndex] returns the position of
    the last family whose flags include the flag, and [-1] when no family
    does; for a valid device and surface,
    [GetPhysicalDeviceSurfaceSupportQueueIndex] returns the position of the
    first family that presents to the surface, and [-1] when no family
    does. *)
Theorem queue_family_index_last_surface_index_first
        (families : list VkQueueFamilyProperties) (k : Z)
        (physicalDevice : VkPhysicalDevice) (surface : VkSurfaceKHR) :
  0 <= k ->
  Z.of_nat (List.length families) <= 2 ^ 31 ->
  handle physicalDevice <> VK_NULL_HANDLE ->
  surface <> VK_NULL_HANDLE ->
  Z.of_nat (List.length (drv_queueFamilies physicalDevice)) <= 2 ^ 31 ->
  last_index_where
    (fun j => exists q, family_at families j = Some q /\
                        includes_flag (queueFlags q) (2 ^ k))
    (Z.of_nat (List.length families))
    (GetPhysicalDeviceQueueFamilyIndex families (2 ^ k)) /\
  exists r,
    GetPhysicalDeviceSurfaceSupportQueueIndex physicalDevice surface = Ret r /\
    first_index_where
      (fun j => drv_surfaceSupport physicalDevice surface j <> VK_FALSE)
      (Z.of_nat (List.length (drv_queueFamilies physicalDevice))) r.
Proof.
  intros Hk Hlen Hpd Hsurf Hlen'. split.
  - unfold GetPhysicalDeviceQueueFamilyIndex.
    pose proof (queue_index_scan_last (2 ^ k) families 0 (-1)
                                      ltac:(lia) ltac:(lia)) as H.
    change (uint32 0) with 0 in H. cbv zeta in H.
    set (r := queue_index_scan families (2 ^ k) 0 (-1)) in *.
    destruct (existsb (flag_test (2 ^ k)) families) eqn:Hex.
    + destruct H as (Hr & (q & Hq & Ht) & Hlast).
      rewrite Z.sub_0_r in Hq.
      assert (exists q0, family_at families r = Some q0 /\
                         includes_flag (queueFlags q0) (2 ^ k)) as HP.
      { exists q. split; [exact Hq |]. now apply flag_test_includes. }
      split.
      * intros Hnone. exfalso. apply (Hnone r); [lia | exact HP].
      * intros _. split; [lia |]. split; [exact HP |].
        intros j Hj (q' & Hq' & Hinc).
        apply flag_test_includes in Hinc; [| exact Hk].
        rewrite (Hlast j q') in Hinc; [discriminate | lia | exact Hq'].
    + split.
      * intros _. exact H.
      * intros (j & Hj & q & Hq & Hinc). exfalso.
        apply flag_test_includes in Hinc; [| exact Hk].
        assert (existsb (flag_test (2 ^ k)) families = true) as Hex'.
        { apply existsb_exists. exists q. split; [| exact Hinc].
          eapply family_at_In; eauto. }
        congruence.
  - unfold GetPhysicalDeviceSurfaceSupportQueueIndex,
      GetPhysicalDeviceQueueFamilyProperties.
    rewrite (CheckValidHandle_true _ Hpd), (CheckValidHandle_true _ Hsurf).
    cbn [ASSERT bind]. eexists. split; [reflexivity |].
    pose proof (surface_index_scan_first
                  (drv_surfaceSupport physicalDevice surface)
                  (drv_queueFamilies physicalDevice) 0 (-1)
                  ltac:(lia) ltac:(lia)) as H.
    change (uint32 0) with 0 in H. cbv zeta in H. rewrite Z.add_0_l in H.
    destruct H as [Hnone Hsome]. split.
    + intros Hall. apply Hnone. intros j Hj.
      destruct (Z.eq_dec (drv_surfaceSupport physicalDevice surface j) 0)
        as [E | N]; [exact E |].
      exfalso. apply (Hall j Hj). exact N.
    + intros (j & Hj & Hsup).
      destruct Hsome as (Hr & Hsr & Hbefore); [exists j; now split |].
      split; [exact Hr |]. split; [exact Hsr |].
      intros j' Hj' Hsup'. apply Hsup'. apply Hbefore. exact Hj'.
Qed.

Example queue_family_index_examples :
  GetPhysicalDeviceQueueFamilyIndex (drv_queueFamilies four_family_device)
                                    VK_QUEUE_GRAPHICS_BIT = 3 /\
  GetPhysicalDeviceQueueFamilyIndex_device four_family_device
                                           VK_QUEUE_GRAPHICS_BIT = Ret 3 /\
  GetPhysicalDeviceQueueFamilyIndex (drv_queueFamilies four_family_device)
                                    VK_QUEUE_TRANSFER_BIT = -1 /\
  GetPhysicalDeviceSurfaceSupportQueueIndex four_family_device 1 = Ret 1.
Proof. repeat split. Qed.

Lemma queue_family_index_last_surface_index_first_witness :
  last_index_where
    (fun j => exists q,
         family_at (drv_queueFamilies four_family_device) j = Some q /\
         includes_flag (queueFlags q) (2 ^ 0))
    4
    (GetPhysicalDeviceQueueFamilyIndex (drv_queueFamilies four_family_device)
                                       (2 ^ 0)) /\
  exists r,
    GetPhysicalDeviceSurfaceSupportQueueIndex four_family_device 1 = Ret r /\
    first_index_where
      (fun j => drv_surfaceSupport four_family_device 1 j <> VK_FALSE) 4 r.
Proof.
  apply (queue_family_index_last_surface_index_first
           (drv_queueFamilies four_family_device) 0 four_family_device 1).
  - lia.
  - simpl. lia.
  - vm_compute. discriminate.
  - discriminate.
  - simpl. lia.
Defined.

(** ** CheckAvailability and GetSurfaceExtensions *)

(** X1. [CheckAvailability] answers [true] exactly when the name is an
    element of the list. *)
Theorem CheckAvailability_In (container : list string) (object : string) :
  Names.CheckAvailability container object = true <-> In object container.
Proof.
  induction container as [| obj rest IH]; simpl.
  - split; [discriminate | contradiction].
  - destruct (String.eqb_spec obj object) as [E | N].
    + split; [intros _; now left | reflexivity].
    + rewrite IH. split; [now right | intros [E | H]; [contradiction | exact H]].
Qed.

Lemma CheckAvailability_true (container : list string) (object : string) :
  In object container -> Names.CheckAvailability container object = true.
Proof.
  induction container as [| obj rest IH]; simpl; [contradiction |].
  destruct (String.eqb_spec obj object) as [E | N]; [reflexivity |].
  intros [E | H]; [contradiction | now apply IH].
Qed.

Lemma CheckAvailability_false (container : list string) (object : string) :
  ~ In object container -> Names.CheckAvailability container object = false.
Proof.
  induction container as [| obj rest IH]; simpl; [reflexivity |].
  destruct (String.eqb_spec obj object) as [E | N].
  - intros H. contradiction H. now left.
  - intros H. apply IH. intros Hin. apply H. now right.
Qed.

Lemma CheckAvailability_reflect (container : list string) (object : string) :
  reflect (In object container) (Names.CheckAvailability container object).
Proof.
  destruct (Names.CheckAvailability container object) eqn:E; constructor.
  - induction container as [| obj rest IH]; simpl in *; [discriminate |].
    destruct (String.eqb_spec obj object); [now left | right; now apply IH].
  - intros Hin. apply CheckAvailability_true in Hin. congruence.
Qed.

Lemma surface_extension_scan_numbered (availableExtensions : nat -> list string)
      (remaining : list string) :
  forall turn extensions,
    SurfaceExtensions.surface_extension_scan availableExtensions remaining
                                             turn extensions
    = extensions
      ++ map snd
           (filter (fun entry =>
                      Names.CheckAvailability (availableExtensions (fst entry))
                                              (snd entry))
                   (numbered turn remaining)).
Proof.
  induction remaining as [| e rest IH]; intros turn extensions; simpl.
  - now rewrite app_nil_r.
  - rewrite IH.
    destruct (Names.CheckAvailability (availableExtensions turn) e); simpl.
    + now rewrite <- app_assoc.
    + reflexivity.
Qed.

Lemma numbered_In (names : list string) :
  forall start turn name,
    In (turn, name) (numbered start names) <->
    (start <= turn)%nat /\ nth_error names (turn - start) = Some name.
Proof.
  induction names as [| n rest IH]; intros start turn name; simpl.
  - split; [contradiction |]. intros [_ H].
    destruct (turn - start)%nat; discriminate.
  - rewrite IH. split.
    + intros [E | [Hle Hnth]].
      * inversion E; subst. split; [lia |]. now rewrite Nat.sub_diag.
      * split; [lia |].
        replace (turn - start)%nat with (S (turn - S start)) by lia. exact Hnth.
    + intros [Hle Hnth].
      destruct (turn - start)%nat as [| k] eqn:Ek.
      * left. simpl in Hnth. inversion Hnth. f_equal. lia.
      * right. split; [lia |].
        replace (turn - S start)%nat with k by lia. exact Hnth.
Qed.

Lemma numbered_filter_same (check : string -> bool)
      (test : nat * string -> bool) (names : list string) :
  forall start,
    (forall turn name, In (turn, name) (numbered start names) ->
                       test (turn, name) = check name) ->
    map snd (filter test (numbered start names)) = filter check names.
Proof.
  induction names as [| n rest IH]; intros start Hsame; simpl; [reflexivity |].
  rewrite (Hsame start n) by now left.
  destruct (check n); simpl; rewrite IH; try reflexivity;
    intros turn name Hin; apply Hsame; now right.
Qed.

Lemma numbered_filter_sublist (test : nat * string -> bool) (names : list string) :
  forall start,
    NoDup names ->
    NoDup (map snd (filter test (numbered start names))) /\
    incl (map snd (filter test (numbered start names))) names /\
    (List.length (map snd (filter test (numbered start names)))
     <= List.length names)%nat.
Proof.
  induction names as [| n rest IH]; intros start Hnd; simpl.
  - split; [constructor |]. split; [intros e He; exact He | lia].
  - inversion Hnd as [| ? ? Hn Hrest]; subst.
    destruct (IH (S start) Hrest) as (Hnd' & Hincl & Hlen).
    destruct (test (start, n)); simpl.
    + split; [constructor; [intros Hin; apply Hn; now apply Hincl | exact Hnd'] |].
      split; [| lia].
      intros e [<- | He]; [now left | right; now apply Hincl].
    + split; [exact Hnd' |]. split; [| lia].
      intros e He. right. now apply Hincl.
Qed.

Lemma surfaceExtensions_NoDup : NoDup SurfaceExtensions.surfaceExtensions.
Proof.
  repeat (constructor;
          [simpl; intros H;
           repeat (destruct H as [H | H]; [discriminate H |]); exact H |]).
  constructor.
Qed.

Lemma surface_read_after_free_In (names read : list string) (e : string) :
  surface_read_after_free names read ->
  In e SurfaceExtensions.surfaceExtensions ->
  In e read -> In e names.
Proof.
  induction 1 as [| name r names read Hr _ IH]; intros He Hin; [destruct Hin |].
  destruct Hin as [E | Hin].
  - subst r. destruct Hr as [Hr | Hr]; [left; congruence | contradiction].
  - right. now apply IH.
Qed.

Lemma surface_names_kept_In (names read : list string) (e : string) :
  surface_names_kept names read ->
  In e SurfaceExtensions.surfaceExtensions ->
  (In e read <-> In e names).
Proof.
  induction 1 as [| name r names read Hr _ IH]; intros He; [tauto |].
  simpl. rewrite (IH He).
  destruct Hr as [-> | [Hname Hr]]; [tauto |].
  split; intros [E | H]; try (now right); subst; contradiction.
Qed.

(** X2. [GetSurfaceExtensions] looks its nine surface extension names up,
    one after the other, in strings read from the freed vector of
    [EnumerateInstanceExtensionNames]: the name at position [turn] of the
    fixed list is returned exactly when it is among the strings read at
    lookup [turn]; the names come in the order of the fixed list, none
    twice, at most nine. Every returned name is listed by the host as long
    as the overwritten places spell none of the nine names; and the result
    is exactly the nine names filtered by the host's list when, moreover,
    the overwritten places held none of them. *)
Theorem GetSurfaceExtensions_available (host : SurfaceExtensions.Host) :
  let extensions := SurfaceExtensions.GetSurfaceExtensions host in
  (forall e,
      In e extensions <->
      exists turn,
        nth_error SurfaceExtensions.surfaceExtensions turn = Some e /\
        In e (SurfaceExtensions.mem_instanceExtensionNames host turn)) /\
  NoDup extensions /\
  (List.length extensions <= 9)%nat /\
  ((forall turn,
       surface_read_after_free
         (SurfaceExtensions.drv_instanceExtensionNames host)
         (SurfaceExtensions.mem_instanceExtensionNames host turn)) ->
   forall e, In e extensions ->
             In e SurfaceExtensions.surfaceExtensions /\
             In e (SurfaceExtensions.drv_instanceExtensionNames host)) /\
  ((forall turn,
       surface_names_kept
         (SurfaceExtensions.drv_instanceExtensionNames host)
         (SurfaceExtensions.mem_instanceExtensionNames host turn)) ->
   extensions
   = filter (Names.CheckAvailability
               (SurfaceExtensions.drv_instanceExtensionNames host))
            SurfaceExtensions.surfaceExtensions).
Proof.
  intros extensions. subst extensions.
  unfold SurfaceExtensions.GetSurfaceExtensions,
    SurfaceExtensions.EnumerateInstanceExtensionNames.
  rewrite surface_extension_scan_numbered. cbn [app].
  set (mem := SurfaceExtensions.mem_instanceExtensionNames host).
  set (test := fun entry : nat * string =>
                 Names.CheckAvailability (mem (fst entry)) (snd entry)).
  assert (forall e,
             In e (map snd (filter test (numbered 0 SurfaceExtensions.surfaceExtensions)))
             <-> exists turn,
                 nth_error SurfaceExtensions.surfaceExtensions turn = Some e /\
                 In e (mem turn)) as Hchar.
  { intros e. rewrite in_map_iff. split.
    - intros ([turn name] & E & Hin). simpl in E. subst name.
      apply filter_In in Hin. destruct Hin as [Hin Ht].
      apply numbered_In in Hin. destruct Hin as [_ Hnth].
      rewrite Nat.sub_0_r in Hnth. exists turn. split; [exact Hnth |].
      unfold test in Ht. cbn [fst snd] in Ht.
      now destruct (CheckAvailability_reflect (mem turn) e).
    - intros (turn & Hnth & Hin). exists (turn, e). split; [reflexivity |].
      apply filter_In. split.
      + apply numbered_In. split; [lia |]. now rewrite Nat.sub_0_r.
      + unfold test. cbn [fst snd]. now apply CheckAvailability_true. }
  destruct (numbered_filter_sublist test SurfaceExtensions.surfaceExtensions 0
                                    surfaceExtensions_NoDup)
    as (Hnd & _ & Hlen).
  split; [exact Hchar |]. split; [exact Hnd |]. split; [exact Hlen |]. split.
  - intros Hread e He. apply Hchar in He. destruct He as (turn & Hnth & Hin).
    assert (In e SurfaceExtensions.surfaceExtensions) as Hnine
        by (eapply nth_error_In; exact Hnth).
    split; [exact Hnine |].
    now apply (surface_read_after_free_In _ _ e (Hread turn)).
  - intros Hkept. apply numbered_filter_same.
    intros turn name Hin. unfold test. cbn [fst snd].
    apply numbered_In in Hin. destruct Hin as [_ Hnth].
    assert (In name SurfaceExtensions.surfaceExtensions) as Hnine
        by (eapply nth_error_In; exact Hnth).
    pose proof (surface_names_kept_In _ _ name (Hkept turn) Hnine) as Hiff.
    fold mem in Hiff.
    destruct (CheckAvailability_reflect (mem turn) name) as [H1 | H1];
      destruct (CheckAvailability_reflect
                  (SurfaceExtensions.drv_instanceExtensionNames host) name)
      as [H2 | H2]; try reflexivity; tauto.
Qed.

Lemma GetSurfaceExtensions_available_witness :
  SurfaceExtensions.GetSurfaceExtensions debug_first_host
  = filter (Names.CheckAvailability
              (SurfaceExtensions.drv_instanceExtensionNames debug_first_host))
           SurfaceExtensions.surfaceExtensions.
Proof.
  refine (proj2 (proj2 (proj2 (proj2
            (GetSurfaceExtensions_available debug_first_host)))) _).
  intros turn.
  apply Forall2_cons.
  - right. split; simpl; intros H;
      repeat (destruct H as [H | H]; [discriminate H |]); exact H.
  - apply Forall2_cons; [now left |].
    apply Forall2_cons; [now left | apply Forall2_nil].
Defined.

(** On [sample_host] the surface extension listed first is lost; on
    [debug_first_host] both are found. *)
Example GetSurfaceExtensions_sample_host :
  SurfaceExtensions.GetSurfaceExtensions sample_host
  = [ "VK_KHR_surface" ]%string /\
  SurfaceExtensions.GetSurfaceExtensions debug_first_host
  = [ "VK_KHR_surface"; "VK_KHR_xcb_surface" ]%string.
Proof. split; reflexivity. Qed.

(** ** The lists of names of VulkanBase *)

Lemma enable_names_spec (available names : list string) :
  forall enabled,
    NoDup enabled ->
    NoDup (enable_names available names enabled) /\
    forall e, In e (enable_names available names enabled) <->
              In e enabled \/ (In e names /\ In e available).
Proof.
  unfold enable_names.
  induction names as [| name rest IH]; intros enabled Hnd; simpl.
  - split; [exact Hnd |]. intros e. tauto.
  - destruct (CheckAvailability_reflect available name) as [Hav | Hnav].
    + destruct (CheckAvailability_reflect enabled name) as [Hen | Hnen].
      * destruct (IH enabled Hnd) as [Hnd' Hin]. split; [exact Hnd' |].
        intros e. rewrite Hin. split.
        -- intros [H | [H1 H2]]; [now left | right; split; [now right | exact H2]].
        -- intros [H | [[<- | H1] H2]]; [now left | now left | right; now split].
      * assert (NoDup (enabled ++ [name])) as Hnd1.
        { apply NoDup_app; [exact Hnd | repeat constructor; intros [] |].
          intros a Ha [<- | []]. contradiction. }
        destruct (IH _ Hnd1) as [Hnd' Hin]. split; [exact Hnd' |].
        intros e. rewrite Hin, in_app_iff. simpl. split.
        -- intros [[H | [<- | []]] | [H1 H2]].
           ++ now left.
           ++ right. split; [now left | exact Hav].
           ++ right. split; [now right | exact H2].
        -- intros [H | [[<- | H1] H2]].
           ++ left. now left.
           ++ left. right. now left.
           ++ right. now split.
    + destruct (IH enabled Hnd) as [Hnd' Hin]. split; [exact Hnd' |].
      intros e. rewrite Hin. split.
      * intros [H | [H1 H2]]; [now left | right; split; [now right | exact H2]].
      * intros [H | [[<- | H1] H2]]; [now left | contradiction | right; now split].
Qed.

Lemma enable_names_prefix (available names : list string) :
  forall enabled,
    exists added, enable_names available names enabled = enabled ++ added.
Proof.
  unfold enable_names.
  induction names as [| name rest IH]; intros enabled; simpl.
  - exists []. now rewrite app_nil_r.
  - destruct (Names.CheckAvailability available name); [| apply IH].
    destruct (Names.CheckAvailability enabled name); [apply IH |].
    destruct (IH (enabled ++ [name])) as [added E].
    exists (name :: added). rewrite E. now rewrite <- app_assoc.
Qed.

(** X3. [EnableInstanceExtension] returns [true] exactly when the name is
    in [availableInstanceExtensions]. On [false], and on a name already in
    [instanceExtensions], the object is left as it was; otherwise the name
    is appended to [instanceExtensions], once. A second call with the same
    name returns the same answer and changes nothing more. *)
Theorem EnableInstanceExtension_effect (base : Base.VulkanBase) (name : string) :
  let r := Base.EnableInstanceExtension base name in
  (fst r = true <-> In name (Base.availableInstanceExtensions base)) /\
  (fst r = false -> snd r = base) /\
  (In name (Base.instanceExtensions base) -> snd r = base) /\
  (fst r = true -> ~ In name (Base.instanceExtensions base) ->
   Base.instanceExtensions (snd r) = Base.instanceExtensions base ++ [name]) /\
  (fst r = true -> In name (Base.instanceExtensions (snd r))) /\
  Base.EnableInstanceExtension (snd r) name = r.
Proof.
  unfold Base.EnableInstanceExtension.
  destruct (CheckAvailability_reflect (Base.availableInstanceExtensions base) name)
    as [Hav | Hnav].
  - destruct (CheckAvailability_reflect (Base.instanceExtensions base) name)
      as [Hen | Hnen]; cbn [Bool.eqb fst snd].
    + repeat split; auto; try tauto; try discriminate.
      rewrite (CheckAvailability_true _ _ Hav), (CheckAvailability_true _ _ Hen).
      reflexivity.
    + repeat split; auto; try tauto; try discriminate.
      * intros _. cbn. apply in_or_app. right. now left.
      * cbn [Base.set_instanceExtensions Base.availableInstanceExtensions
                                         Base.instanceExtensions].
        rewrite (CheckAvailability_true _ _ Hav).
        rewrite (CheckAvailability_true (Base.instanceExtensions base ++ [name]) name)
          by (apply in_or_app; right; now left).
        reflexivity.
  - cbn [fst snd]. repeat split; auto; try tauto; try discriminate.
    rewrite (CheckAvailability_false _ _ Hnav). reflexivity.
Qed.

Lemma enable_instance_extensions_names (names : list string) :
  forall base,
    Base.availableInstanceExtensions (enable_instance_extensions base names)
    = Base.availableInstanceExtensions base /\
    Base.instanceLayers (enable_instance_extensions base names)
    = Base.instanceLayers base /\
    Base.instanceExtensions (enable_instance_extensions base names)
    = enable_names (Base.availableInstanceExtensions base) names
                   (Base.instanceExtensions base).
Proof.
  unfold enable_instance_extensions, enable_names.
  induction names as [| name rest IH]; intros base; simpl.
  - repeat split.
  - destruct (IH (snd (Base.EnableInstanceExtension base name))) as (Ha & Hl & He).
    rewrite Ha, Hl, He. unfold Base.EnableInstanceExtension.
    destruct (Names.CheckAvailability (Base.availableInstanceExtensions base) name);
      [| repeat split].
    destruct (Names.CheckAvailability (Base.instanceExtensions base) name);
      repeat split.
Qed.

(** X4. When [instanceExtensions] holds no name twice, it still holds none
    twice after any sequence of [EnableInstanceExtension] calls, and then
    holds what it held before together with the requested names that are
    in [availableInstanceExtensions]; the names it held come first, in
    their order; [availableInstanceExtensions] and [instanceLayers] are
    left alone. *)
Theorem EnableInstanceExtension_sequence
        (base : Base.VulkanBase) (names : list string) :
  NoDup (Base.instanceExtensions base) ->
  let base' := enable_instance_extensions base names in
  NoDup (Base.instanceExtensions base') /\
  (forall e, In e (Base.instanceExtensions base') <->
             In e (Base.instanceExtensions base) \/
             (In e names /\ In e (Base.availableInstanceExtensions base))) /\
  (exists added,
      Base.instanceExtensions base' = Base.instanceExtensions base ++ added) /\
  Base.availableInstanceExtensions base' = Base.availableInstanceExtensions base /\
  Base.instanceLayers base' = Base.instanceLayers base.
Proof.
  intros Hnd base'. subst base'.
  destruct (enable_instance_extensions_names names base) as (Ha & Hl & He).
  rewrite Ha, Hl, He.
  destruct (enable_names_spec (Base.availableInstanceExtensions base) names
                              _ Hnd) as [Hnd' Hin].
  split; [exact Hnd' |]. split; [exact Hin |].
  split; [apply enable_names_prefix |]. split; reflexivity.
Qed.

Lemma EnableInstanceExtension_sequence_witness :
  NoDup (Base.instanceExtensions
           (enable_instance_extensions
              sample_base
              [ "VK_KHR_xcb_surface"; "VK_KHR_win32_surface";
                "VK_KHR_surface"; "VK_KHR_xcb_surface" ]%string)).
Proof.
  apply (EnableInstanceExtension_sequence
           sample_base
           [ "VK_KHR_xcb_surface"; "VK_KHR_win32_surface";
             "VK_KHR_surface"; "VK_KHR_xcb_surface" ]%string).
  simpl. constructor; [intros [] | constructor].
Defined.

Example EnableInstanceExtension_four_requests :
  Base.instanceExtensions
    (enable_instance_extensions
       sample_base
       [ "VK_KHR_xcb_surface"; "VK_KHR_win32_surface";
         "VK_KHR_surface"; "VK_KHR_xcb_surface" ]%string)
  = [ "VK_KHR_surface"; "VK_KHR_xcb_surface" ]%string.
Proof. reflexivity. Qed.

Lemma enable_instance_layers_names (names : list string) :
  forall base,
    Base.availableInstanceLayers (enable_instance_layers base names)
    = Base.availableInstanceLayers base /\
    Base.instanceLayers (enable_instance_layers base names)
    = Base.instanceLayers base /\
    Base.instanceExtensions (enable_instance_layers base names)
    = Base.instanceExtensions base
      ++ filter (fun name =>
                   Names.CheckAvailability (Base.availableInstanceLayers base) name
                   && negb (Names.CheckAvailability (Base.instanceLayers base) name))
                names.
Proof.
  unfold enable_instance_layers.
  induction names as [| name rest IH]; intros base; simpl.
  - repeat split. now rewrite app_nil_r.
  - destruct (IH (snd (Base.EnableInstanceLayer base name))) as (Ha & Hl & He).
    rewrite Ha, Hl, He. clear Ha Hl He. unfold Base.EnableInstanceLayer.
    destruct (Names.CheckAvailability (Base.availableInstanceLayers base) name);
      [| repeat split].
    destruct (Names.CheckAvailability (Base.instanceLayers base) name);
      cbn [Bool.eqb snd andb negb]; repeat split.
    cbn. now rewrite <- app_assoc.
Qed.

(** X5. [EnableInstanceLayer] never changes [instanceLayers]: its
    [push_back] is on [instanceExtensions]. After any sequence of calls
    [instanceLayers] and [availableInstanceLayers] are what they were, and
    [instanceExtensions] has grown by the requested names that are in
    [availableInstanceLayers] and not in [instanceLayers], in the order of
    the calls, a name requested twice being appended twice; with an empty
    [instanceLayers] these are all the requested names that are in
    [availableInstanceLayers]. *)
Theorem EnableInstanceLayer_sequence
        (base : Base.VulkanBase) (names : list string) :
  let base' := enable_instance_layers base names in
  Base.instanceLayers base' = Base.instanceLayers base /\
  Base.availableInstanceLayers base' = Base.availableInstanceLayers base /\
  Base.instanceExtensions base'
  = Base.instanceExtensions base
    ++ filter (fun name =>
                 Names.CheckAvailability (Base.availableInstanceLayers base) name
                 && negb (Names.CheckAvailability (Base.instanceLayers base) name))
              names /\
  (Base.instanceLayers base = [] ->
   Base.instanceExtensions base'
   = Base.instanceExtensions base
     ++ filter (Names.CheckAvailability (Base.availableInstanceLayers base)) names).
Proof.
  intros base'. subst base'.
  destruct (enable_instance_layers_names names base) as (Ha & Hl & He).
  split; [exact Hl |]. split; [exact Ha |]. split; [exact He |].
  intros Hnil. rewrite He, Hnil. f_equal. apply filter_ext.
  intros name. cbn. now rewrite andb_true_r.
Qed.

Lemma EnableInstanceLayer_sequence_witness :
  Base.instanceExtensions
    (enable_instance_layers
       layer_base
       [ "VK_LAYER_KHRONOS_validation"; "VK_LAYER_LUNARG_api_dump";
         "VK_LAYER_KHRONOS_validation" ]%string)
  = Base.instanceExtensions layer_base
    ++ filter (Names.CheckAvailability (Base.availableInstanceLayers layer_base))
              [ "VK_LAYER_KHRONOS_validation"; "VK_LAYER_LUNARG_api_dump";
                "VK_LAYER_KHRONOS_validation" ]%string.
Proof.
  refine (proj2 (proj2 (proj2
            (EnableInstanceLayer_sequence
               layer_base
               [ "VK_LAYER_KHRONOS_validation"; "VK_LAYER_LUNARG_api_dump";
                 "VK_LAYER_KHRONOS_validation" ]%string))) _).
  reflexivity.
Defined.

Example EnableInstanceLayer_twice :
  let base :=
    enable_instance_layers layer_base
      [ "VK_LAYER_KHRONOS_validation"; "VK_LAYER_KHRONOS_validation" ]%string in
  Base.instanceLayers base = [] /\
  Base.instanceExtensions base
  = [ "VK_LAYER_KHRONOS_validation"; "VK_LAYER_KHRONOS_validation" ]%string.
Proof. split; reflexivity. Qed.

Lemma enable_device_extensions_names (names : list string) :
  forall base,
    Base.availableDeviceExtensions (enable_device_extensions base names)
    = Base.availableDeviceExtensions base /\
    Base.physicalDevice (enable_device_extensions base names)
    = Base.physicalDevice base /\
    Base.instanceExtensions (enable_device_extensions base names)
    = Base.instanceExtensions base /\
    Base.deviceExtensions (enable_device_extensions base names)
    = enable_names (Base.availableDeviceExtensions base) names
                   (Base.deviceExtensions base).
Proof.
  unfold enable_device_extensions, enable_names.
  induction names as [| name rest IH]; intros base; simpl.
  - repeat split.
  - destruct (IH (snd (Base.EnableDeviceExtension base name)))
      as (Ha & Hp & Hi & He).
    rewrite Ha, Hp, Hi, He. unfold Base.EnableDeviceExtension.
    destruct (Names.CheckAvailability (Base.availableDeviceExtensions base) name);
      [| repeat split].
    destruct (Names.CheckAvailability (Base.deviceExtensions base) name);
      repeat split.
Qed.

(** X6. [EnableDeviceExtension] returns [true] exactly when the name is in
    [availableDeviceExtensions]. When [deviceExtensions] holds no name
    twice, it still holds none twice after any sequence of calls, and then
    holds what it held before together with the requested names that are
    available; the instance extensions and the selected device are left
    alone. *)
Theorem EnableDeviceExtension_sequence
        (base : Base.VulkanBase) (names : list string) (name : string) :
  NoDup (Base.deviceExtensions base) ->
  let base' := enable_device_extensions base names in
  (fst (Base.EnableDeviceExtension base name) = true <->
   In name (Base.availableDeviceExtensions base)) /\
  NoDup (Base.deviceExtensions base') /\
  (forall e, In e (Base.deviceExtensions base') <->
             In e (Base.deviceExtensions base) \/
             (In e names /\ In e (Base.availableDeviceExtensions base))) /\
  Base.instanceExtensions base' = Base.instanceExtensions base /\
  Base.physicalDevice base' = Base.physicalDevice base.
Proof.
  intros Hnd base'. subst base'.
  destruct (enable_device_extensions_names names base) as (_ & Hp & Hi & He).
  rewrite Hp, Hi, He.
  destruct (enable_names_spec (Base.availableDeviceExtensions base) names
                              _ Hnd) as [Hnd' Hin].
  split; [| repeat split; auto; apply Hin].
  unfold Base.EnableDeviceExtension.
  destruct (CheckAvailability_reflect (Base.availableDeviceExtensions base) name);
    cbn [fst]; [tauto |].
  split; [discriminate | contradiction].
Qed.

Lemma EnableInstanceExtension_effect_witness :
  Base.instanceExtensions
    (snd (Base.EnableInstanceExtension sample_base "VK_KHR_xcb_surface"))
  = Base.instanceExtensions sample_base ++ [ "VK_KHR_xcb_surface"%string ].
Proof.
  apply (proj1 (proj2 (proj2 (proj2
           (EnableInstanceExtension_effect sample_base "VK_KHR_xcb_surface"))))).
  - reflexivity.
  - simpl. intros [H | []]. discriminate.
Defined.

Lemma EnableDeviceExtension_sequence_witness :
  NoDup (Base.deviceExtensions
           (enable_device_extensions
              sample_base
              [ "VK_KHR_swapchain"; "VK_KHR_maintenance1"; "VK_KHR_swapchain" ]%string)).
Proof.
  apply (EnableDeviceExtension_sequence
           sample_base
           [ "VK_KHR_swapchain"; "VK_KHR_maintenance1"; "VK_KHR_swapchain" ]%string
           "VK_KHR_swapchain").
  simpl. constructor.
Defined.

(** ** More on RatePhysicalDevice and SelectBestPhysicalDevice *)

(** What a score above zero tells about the device. *)
Lemma rated_score_positive (physicalDevice : VkPhysicalDevice) (surface : VkSurfaceKHR) :
  0 < rated_score physicalDevice surface ->
  In VK_KHR_SWAPCHAIN_EXTENSION_NAME (mem_extensionNames physicalDevice) /\
  (surface <> VK_NULL_HANDLE ->
   drv_presentModeCount physicalDevice surface <> 0 /\
   drv_formatCount physicalDevice surface <> 0).
Proof.
  unfold rated_score. intros Hpos.
  destruct (swapchain_scan (mem_extensionNames physicalDevice) false) eqn:Hext;
    cbn [negb] in Hpos.
  - split; [now apply swapchain_scan_In |].
    intros Hs. destruct (Z.eqb_spec surface VK_NULL_HANDLE); [contradiction |].
    cbn [negb] in Hpos.
    destruct (Z.eqb_spec (drv_formatCount physicalDevice surface) 0); [lia |].
    destruct (Z.eqb_spec (drv_presentModeCount physicalDevice surface) 0); [lia |].
    now split.
  - exfalso.
    destruct (negb (surface =? VK_NULL_HANDLE)); [| lia].
    destruct (drv_formatCount physicalDevice surface =? 0); [lia |].
    destruct (drv_presentModeCount physicalDevice surface =? 0); lia.
Qed.

(** A returned device was in the list, has a valid handle and a score
    above zero. *)
Lemma SelectBestPhysicalDevice_returned instance surface best :
  SelectBestPhysicalDevice instance surface = Ret best ->
  instance_handle instance <> VK_NULL_HANDLE /\
  In best (drv_physicalDevices instance) /\
  handle best <> VK_NULL_HANDLE /\
  0 < rated_score best surface.
Proof.
  pose proof (select_scan_result surface (drv_physicalDevices instance) 0 None)
    as [_ Hr].
  unfold SelectBestPhysicalDevice, EnumeratePhysicalDevices,
    GetPhysicalDeviceProperties.
  destruct (CheckValidHandle_dec (instance_handle instance)) as [(_ & E) | (Hi & E)];
    rewrite E; cbn [ASSERT bind]; [discriminate |].
  destruct (0 <? _); cbn [ASSERT bind]; [| discriminate].
  destruct (select_scan surface (drv_physicalDevices instance) 0 None)
    as [[score selected] | msg |]; cbn [bind]; [| discriminate | discriminate].
  destruct (Hr _ _ eq_refl) as [(-> & -> & _) | (b & Hin & -> & Hb & Hlt)].
  - cbn. discriminate.
  - destruct (Z.eqb_spec score 0) as [E0 | _]; [lia |]. cbn [negb ASSERT bind].
    destruct (RatePhysicalDevice_cases b surface) as [(_ & Eb) | (Hh & Eb)];
      rewrite Eb in Hb; [discriminate |].
    rewrite (CheckValidHandle_true _ Hh). cbn [ASSERT bind].
    intros H. inversion H; subst. inversion Hb; subst.
    repeat split; auto.
Qed.

(** X7. A device returned by [SelectBestPhysicalDevice] is one of the
    enumerated devices and has a valid handle; the swapchain extension name
    was among the strings read back as its extension names, so that its
    driver lists the extension as long as the freed vector of names is read
    back as the driver wrote it or, where overwritten, as bytes that do not
    spell that name; and when a surface was given the device has at least
    one present mode and one surface format for it. *)
Theorem SelectBestPhysicalDevice_selected_device
        (instance : VkInstance) (surface : VkSurfaceKHR) (best : VkPhysicalDevice) :
  SelectBestPhysicalDevice instance surface = Ret best ->
  In best (drv_physicalDevices instance) /\
  handle best <> VK_NULL_HANDLE /\
  In VK_KHR_SWAPCHAIN_EXTENSION_NAME (mem_extensionNames best) /\
  (read_after_free (drv_extensionNames best) (mem_extensionNames best) ->
   In VK_KHR_SWAPCHAIN_EXTENSION_NAME (drv_extensionNames best)) /\
  (surface <> VK_NULL_HANDLE ->
   drv_presentModeCount best surface <> 0 /\ drv_formatCount best surface <> 0).
Proof.
  intros H. apply SelectBestPhysicalDevice_returned in H.
  destruct H as (_ & Hin & Hh & Hpos).
  apply rated_score_positive in Hpos. destruct Hpos as [Hext Hcounts].
  split; [exact Hin |]. split; [exact Hh |]. split; [exact Hext |].
  split; [| exact Hcounts].
  intros Hmem. now apply (read_after_free_swapchain _ _ Hmem).
Qed.

Lemma SelectBestPhysicalDevice_selected_device_witness :
  In VK_KHR_SWAPCHAIN_EXTENSION_NAME
     (drv_extensionNames
        (sample_device 4097 [3] (fun _ => VK_TRUE) with_swapchain 3 2)).
Proof.
  refine (proj1 (proj2 (proj2 (proj2
            (SelectBestPhysicalDevice_selected_device tie_instance 1 _ _)))) _).
  - vm_compute. reflexivity.
  - apply Forall2_cons; [right; discriminate |].
    apply Forall2_cons; [left; reflexivity | apply Forall2_nil].
Defined.

(** X9. With a surface, a device with a valid handle that reports no
    present mode or no surface format for it is rated 0. *)
Theorem RatePhysicalDevice_no_mode_or_format
        (physicalDevice : VkPhysicalDevice) (surface : VkSurfaceKHR) :
  handle physicalDevice <> VK_NULL_HANDLE ->
  surface <> VK_NULL_HANDLE ->
  drv_presentModeCount physicalDevice surface = 0 \/
  drv_formatCount physicalDevice surface = 0 ->
  RatePhysicalDevice physicalDevice surface = Ret 0.
Proof.
  intros Hh Hs Hzero.
  rewrite RatePhysicalDevice_valid by exact Hh. unfold rated_score.
  destruct (Z.eqb_spec surface VK_NULL_HANDLE); [contradiction |]. cbn [negb].
  destruct (Z.eqb_spec (drv_formatCount physicalDevice surface) 0); [reflexivity |].
  destruct (Z.eqb_spec (drv_presentModeCount physicalDevice surface) 0);
    [reflexivity |].
  destruct Hzero; contradiction.
Qed.

Lemma RatePhysicalDevice_no_mode_or_format_witness :
  RatePhysicalDevice
    (sample_device 4097 [3] (fun _ => VK_TRUE) ["VK_KHR_swapchain"%string] 0 2) 1
  = Ret 0.
Proof.
  apply RatePhysicalDevice_no_mode_or_format.
  - vm_compute. discriminate.
  - discriminate.
  - left. reflexivity.
Defined.


(** ** More on the swapchain selectors *)

Lemma format_scan_member (formats : list VkSurfaceFormatKHR) f :
  format_scan formats = Some f -> In f formats.
Proof.
  induction formats as [| g rest IH]; simpl; [discriminate |].
  destruct ((format g =? VK_FORMAT_B8G8R8A8_SRGB)
            && (colorSpace g =? VK_COLOR_SPACE_SRGB_NONLINEAR_KHR)).
  - intros H. inversion H. now left.
  - intros H. right. now apply IH.
Qed.

(** X11. [SelectSwapchainSurfaceFormat] reads out of the bounds of its
    argument exactly when the list is empty; in every other case it returns
    an element of the list, and it never ends in a failed assertion. *)
Theorem SelectSwapchainSurfaceFormat_member (formats : list VkSurfaceFormatKHR) :
  (SelectSwapchainSurfaceFormat formats = UndefinedRead <-> formats = []) /\
  (forall selected,
      SelectSwapchainSurfaceFormat formats = Ret selected -> In selected formats) /\
  (forall msg, SelectSwapchainSurfaceFormat formats <> Abort msg).
Proof.
  unfold SelectSwapchainSurfaceFormat.
  destruct (format_scan formats) as [f |] eqn:Hscan.
  - apply format_scan_member in Hscan. split; [| split].
    + split; [discriminate | intros ->; contradiction].
    + intros selected H. inversion H; subst. exact Hscan.
    + discriminate.
  - destruct formats as [| first rest].
    + split; [tauto |]. split; discriminate.
    + split; [split; discriminate |]. split; [| discriminate].
      intros selected H. inversion H; subst. now left.
Qed.

Lemma SelectSwapchainSurfaceFormat_member_witness :
  In preferred_format
     [ {| format := VK_FORMAT_R8G8B8A8_UNORM;
          colorSpace := VK_COLOR_SPACE_SRGB_NONLINEAR_KHR |};
       preferred_format ].
Proof.
  apply (proj1 (proj2 (SelectSwapchainSurfaceFormat_member _))).
  reflexivity.
Defined.

(** X12. [SelectSwapchainSurfacePresentMode] returns the mailbox mode or
    the FIFO mode and nothing else; what it returns is a mode of the list
    exactly when the list holds one of these two. On a list with neither,
    the empty list among them, it returns FIFO all the same. *)
Theorem SelectSwapchainSurfacePresentMode_member (presentModes : list Z) :
  let selected := SelectSwapchainSurfacePresentMode presentModes in
  (selected = VK_PRESENT_MODE_MAILBOX_KHR \/ selected = VK_PRESENT_MODE_FIFO_KHR) /\
  (In selected presentModes <->
   In VK_PRESENT_MODE_MAILBOX_KHR presentModes \/
   In VK_PRESENT_MODE_FIFO_KHR presentModes).
Proof.
  intros selected. subst selected.
  destruct (in_dec Z.eq_dec VK_PRESENT_MODE_MAILBOX_KHR presentModes) as [Hin | Hnin].
  - rewrite (SelectSwapchainSurfacePresentMode_mailbox _ Hin). split; [now left |].
    tauto.
  - rewrite (SelectSwapchainSurfacePresentMode_fifo _ Hnin). split; [now right |].
    tauto.
Qed.

Example SelectSwapchainSurfacePresentMode_unlisted :
  SelectSwapchainSurfacePresentMode [VK_PRESENT_MODE_IMMEDIATE_KHR]
  = VK_PRESENT_MODE_FIFO_KHR /\
  SelectSwapchainSurfacePresentMode [] = VK_PRESENT_MODE_FIFO_KHR.
Proof. split; reflexivity. Qed.

(** X13. When the current extent is undefined and the window reports a
    negative width or height (an [int]), the conversion to [uint32] makes
    it larger than any bound below [2^31], and the result is the maximum
    extent in that dimension. *)
Theorem SelectSwapchainSurfaceImageExtent_negative_window
        (window : SDL_Window) (capabilities : VkSurfaceCapabilitiesKHR) :
  width (currentExtent capabilities) = UINT32_MAX ->
  let result := SelectSwapchainSurfaceImageExtent window capabilities in
  (- 2 ^ 31 <= window_w window < 0 ->
   width (minImageExtent capabilities) <= width (maxImageExtent capabilities) < 2 ^ 31 ->
   width result = width (maxImageExtent capabilities)) /\
  (- 2 ^ 31 <= window_h window < 0 ->
   height (minImageExtent capabilities) <= height (maxImageExtent capabilities) < 2 ^ 31 ->
   height result = height (maxImageExtent capabilities)).
Proof.
  intros Hundef result. subst result.
  unfold SelectSwapchainSurfaceImageExtent.
  rewrite Hundef. cbn [Z.eqb negb width height].
  replace (UINT32_MAX =? UINT32_MAX) with true by reflexivity. cbn [negb width height].
  assert (forall z, - 2 ^ 31 <= z < 0 -> uint32 z = z + 2 ^ 32) as Hcast.
  { intros z Hz. unfold uint32. symmetry.
    apply (Z.mod_unique_pos z (2 ^ 32) (-1) (z + 2 ^ 32)); lia. }
  split; intros Hneg Hb; rewrite (Hcast _ Hneg); lia.
Qed.

Lemma SelectSwapchainSurfaceImageExtent_negative_window_witness :
  width (SelectSwapchainSurfaceImageExtent
           {| window_w := -1; window_h := 600 |}
           undefined_extent_capabilities) = 1024.
Proof.
  apply (SelectSwapchainSurfaceImageExtent_negative_window
           {| window_w := -1; window_h := 600 |} undefined_extent_capabilities).
  - reflexivity.
  - simpl. lia.
  - simpl. lia.
Defined.

(** ** The two revisions of the queue family index functions *)

Section IndexRevisions.

Variable flag : Z.

Lemma queue_index_scan_agree (families : list VkQueueFamilyProperties) :
  forall (k : Z) (o : option Z) (z : Z),
    0 <= k ->
    k + Z.of_nat (List.length families) <= 2 ^ 31 ->
    index_agree o z ->
    index_agree (VulkanRev.queue_index_scan families flag (uint32 k) o)
                (queue_index_scan families flag (uint32 k) z).
Proof.
  induction families as [| q rest IH]; intros k o z Hk Hlen Hag; simpl.
  - exact Hag.
  - simpl List.length in Hlen. rewrite Nat2Z.inj_succ in Hlen.
    rewrite uint32_succ_idemp.
    apply IH; [lia | lia |].
    rewrite (uint32_small k) by lia. rewrite (to_int_small k) by lia.
    destruct (negb (Z.land (queueFlags q) flag =? 0)); [| exact Hag].
    split; [reflexivity | lia].
Qed.

End IndexRevisions.

Lemma surface_index_scan_agree (support : Z -> VkBool32)
      (queues : list VkQueueFamilyProperties) :
  forall (k : Z) (o : option Z) (z : Z),
    0 <= k ->
    k + Z.of_nat (List.length queues) <= 2 ^ 31 ->
    index_agree o z ->
    index_agree (VulkanRev.surface_index_scan support queues (uint32 k) o)
                (surface_index_scan support queues (uint32 k) z).
Proof.
  induction queues as [| q rest IH]; intros k o z Hk Hlen Hag; simpl.
  - exact Hag.
  - simpl List.length in Hlen. rewrite Nat2Z.inj_succ in Hlen.
    rewrite uint32_succ_idemp.
    rewrite (uint32_small k) by lia. rewrite (to_int_small k) by lia.
    destruct (negb (support k =? 0)).
    + split; [reflexivity | lia].
    + apply IH; [lia | lia | exact Hag].
Qed.

(** X14. On a list of at most [2^31] families the two revisions of
    [GetPhysicalDeviceQueueFamilyIndex] agree for every flag: the one that
    returns [int] gives [-1] exactly when the one that returns
    [std::optional] gives an empty optional, and otherwise both give the
    same index, which is not negative. *)
Theorem GetPhysicalDeviceQueueFamilyIndex_revisions
        (families : list VkQueueFamilyProperties) (flag : Z) :
  Z.of_nat (List.length families) <= 2 ^ 31 ->
  GetPhysicalDeviceQueueFamilyIndex families flag
  = optional_to_int (VulkanRev.GetPhysicalDeviceQueueFamilyIndex families flag) /\
  (VulkanRev.GetPhysicalDeviceQueueFamilyIndex families flag = None <->
   GetPhysicalDeviceQueueFamilyIndex families flag = -1) /\
  (forall v, VulkanRev.GetPhysicalDeviceQueueFamilyIndex families flag = Some v ->
             0 <= v < Z.of_nat (List.length families) /\
             GetPhysicalDeviceQueueFamilyIndex families flag = v).
Proof.
  intros Hlen.
  unfold GetPhysicalDeviceQueueFamilyIndex, VulkanRev.GetPhysicalDeviceQueueFamilyIndex.
  pose proof (queue_index_scan_agree flag families 0 None (-1)
                                     ltac:(lia) ltac:(lia)
                                     (conj eq_refl I)) as [Heq Hrange].
  pose proof (queue_index_scan_last flag families 0 (-1) ltac:(lia) ltac:(lia)) as Hlast.
  change (uint32 0) with 0 in *. cbv zeta in Hlast.
  destruct (VulkanRev.queue_index_scan families flag 0 None) as [v |];
    simpl in Heq.
  - split; [exact Heq |]. split.
    + split; [discriminate | intros H; lia].
    + intros v' H. inversion H; subst v'. split; [| exact Heq].
      destruct (existsb (flag_test flag) families); lia.
  - split; [exact Heq |]. split; [tauto | discriminate].
Qed.

Lemma GetPhysicalDeviceQueueFamilyIndex_revisions_witness :
  GetPhysicalDeviceQueueFamilyIndex (drv_queueFamilies four_family_device)
                                    VK_QUEUE_GRAPHICS_BIT
  = optional_to_int
      (VulkanRev.GetPhysicalDeviceQueueFamilyIndex
         (drv_queueFamilies four_family_device) VK_QUEUE_GRAPHICS_BIT).
Proof.
  refine (proj1 (GetPhysicalDeviceQueueFamilyIndex_revisions
                   (drv_queueFamilies four_family_device) VK_QUEUE_GRAPHICS_BIT _)).
  simpl. lia.
Defined.

(** X15. For a valid device with at most [2^31] families and a valid
    surface the two revisions of [GetPhysicalDeviceSurfaceSupportQueueIndex]
    return, and agree in the same way; for a null device or surface handle
    both end in a failed assertion. *)
Theorem GetPhysicalDeviceSurfaceSupportQueueIndex_revisions
        (physicalDevice : VkPhysicalDevice) (surface : VkSurfaceKHR) :
  (handle physicalDevice = VK_NULL_HANDLE \/ surface = VK_NULL_HANDLE ->
   (exists msg, GetPhysicalDeviceSurfaceSupportQueueIndex physicalDevice surface
                = Abort msg) /\
   (exists msg, VulkanRev.GetPhysicalDeviceSurfaceSupportQueueIndex
                  physicalDevice surface = Abort msg)) /\
  (handle physicalDevice <> VK_NULL_HANDLE ->
   surface <> VK_NULL_HANDLE ->
   Z.of_nat (List.length (drv_queueFamilies physicalDevice)) <= 2 ^ 31 ->
   exists o,
     VulkanRev.GetPhysicalDeviceSurfaceSupportQueueIndex physicalDevice surface
     = Ret o /\
     GetPhysicalDeviceSurfaceSupportQueueIndex physicalDevice surface
     = Ret (optional_to_int o) /\
     (o = None <-> optional_to_int o = -1)).
Proof.
  unfold GetPhysicalDeviceSurfaceSupportQueueIndex,
    VulkanRev.GetPhysicalDeviceSurfaceSupportQueueIndex,
    GetPhysicalDeviceQueueFamilyProperties,
    VulkanRev.GetPhysicalDeviceQueueFamilyProperties,
    VulkanRev.CHECK_VULKAN_HANDLE, CheckValidHandle.
  split.
  - intros [E | E].
    + rewrite E. cbn. eauto.
    + rewrite E.
      destruct (negb (handle physicalDevice =? VK_NULL_HANDLE)); cbn; eauto.
  - intros Hh Hs Hlen.
    destruct (Z.eqb_spec (handle physicalDevice) VK_NULL_HANDLE); [contradiction |].
    destruct (Z.eqb_spec surface VK_NULL_HANDLE); [contradiction |].
    cbn [negb ASSERT bind].
    pose proof (surface_index_scan_agree
                  (drv_surfaceSupport physicalDevice surface)
                  (drv_queueFamilies physicalDevice) 0 None (-1)
                  ltac:(lia) ltac:(lia) (conj eq_refl I)) as [Heq Hrange].
    change (uint32 0) with 0 in *.
    eexists. split; [reflexivity |]. rewrite Heq. split; [reflexivity |].
    destruct (VulkanRev.surface_index_scan _ _ 0 None) as [v |]; simpl.
    + split; [discriminate | lia].
    + tauto.
Qed.

Lemma GetPhysicalDeviceSurfaceSupportQueueIndex_revisions_witness :
  exists o,
    VulkanRev.GetPhysicalDeviceSurfaceSupportQueueIndex four_family_device 1 = Ret o /\
    GetPhysicalDeviceSurfaceSupportQueueIndex four_family_device 1
    = Ret (optional_to_int o) /\
    (o = None <-> optional_to_int o = -1).
Proof.
  apply (proj2 (GetPhysicalDeviceSurfaceSupportQueueIndex_revisions
                  four_family_device 1)).
  - vm_compute. discriminate.
  - discriminate.
  - simpl. lia.
Defined.

(** ** SwapchainCreateInfo *)

Lemma optional_queue_index_scan_none (flag : Z)
      (families : list VkQueueFamilyProperties) :
  forall i o,
    VulkanRev.queue_index_scan families flag i o = None <->
    o = None /\ existsb (flag_test flag) families = false.
Proof.
  induction families as [| q rest IH]; intros i o; simpl.
  - tauto.
  - rewrite IH. fold (flag_test flag q).
    destruct (flag_test flag q); simpl.
    + split; [intros [H _]; discriminate | intros [_ H]; discriminate].
    + tauto.
Qed.

Lemma optional_surface_index_scan_none (support : Z -> VkBool32)
      (queues : list VkQueueFamilyProperties) :
  forall k,
    0 <= k ->
    k + Z.of_nat (List.length queues) <= 2 ^ 32 ->
    (VulkanRev.surface_index_scan support queues (uint32 k) None = None <->
     forall j, k <= j < k + Z.of_nat (List.length queues) -> support j = 0).
Proof.
  induction queues as [| q rest IH]; intros k Hk Hlen; simpl.
  - split; [intros _ j Hj; lia | reflexivity].
  - simpl List.length in Hlen. rewrite Nat2Z.inj_succ in *.
    rewrite uint32_succ_idemp. rewrite (uint32_small k) by lia.
    destruct (Z.eqb_spec (support k) 0) as [E | N]; simpl.
    + rewrite IH by lia. split.
      * intros H j Hj. destruct (Z.eq_dec j k) as [-> | Hne];
          [exact E | apply H; lia].
      * intros H j Hj. apply H. lia.
    + split; [discriminate |]. intros H. contradiction N. apply H. lia.
Qed.

(** With valid handles the initializer runs the format selection and the
    two index lookups, in this order. *)
Lemma SwapchainCreateInfo_run driver physicalDevice surface window :
  handle physicalDevice <> VK_NULL_HANDLE ->
  surface <> VK_NULL_HANDLE ->
  Init.SwapchainCreateInfo driver physicalDevice surface window
  = (surfaceFormat <-
       SelectSwapchainSurfaceFormat (VulkanRev.drv_formats (driver surface)) ;;
     graphics <-
       VulkanRev.value
         (VulkanRev.GetPhysicalDeviceQueueFamilyIndex
            (drv_queueFamilies physicalDevice) VK_QUEUE_GRAPHICS_BIT) ;;
     present <-
       VulkanRev.value
         (VulkanRev.surface_index_scan (drv_surfaceSupport physicalDevice surface)
                                       (drv_queueFamilies physicalDevice) 0 None) ;;
     Ret (swapchain_info driver surface window surfaceFormat graphics present)).
Proof.
  intros Hh Hs.
  unfold Init.SwapchainCreateInfo, VulkanRev.GetPhysicalDeviceSurfacePresentModes,
    VulkanRev.GetPhysicalDeviceSurfaceCapabilities,
    VulkanRev.GetPhysicalDeviceSurfaceFormats,
    VulkanRev.GetPhysicalDeviceQueueFamilyIndex_device,
    VulkanRev.GetPhysicalDeviceSurfaceSupportQueueIndex,
    VulkanRev.GetPhysicalDeviceQueueFamilyProperties,
    VulkanRev.GetPhysicalDeviceQueueFamilyIndex,
    VulkanRev.CHECK_VULKAN_HANDLE.
  destruct (Z.eqb_spec (handle physicalDevice) VK_NULL_HANDLE); [contradiction |].
  destruct (Z.eqb_spec surface VK_NULL_HANDLE); [contradiction |].
  cbn [negb ASSERT bind].
  destruct (SelectSwapchainSurfaceFormat (VulkanRev.drv_formats (driver surface)));
    reflexivity.
Qed.

Lemma SwapchainCreateInfo_null_handle driver physicalDevice surface window :
  handle physicalDevice = VK_NULL_HANDLE \/ surface = VK_NULL_HANDLE ->
  Init.SwapchainCreateInfo driver physicalDevice surface window
  = Abort "Invalid Vulkan handle passed as parameter [ parameter name : %s ]".
Proof.
  unfold Init.SwapchainCreateInfo, VulkanRev.GetPhysicalDeviceSurfacePresentModes,
    VulkanRev.CHECK_VULKAN_HANDLE.
  intros [E | E]; rewrite E.
  - reflexivity.
  - destruct (negb (handle physicalDevice =? VK_NULL_HANDLE)); reflexivity.
Qed.

Lemma has_graphics_family_scan (physicalDevice : VkPhysicalDevice) :
  has_graphics_family physicalDevice <->
  VulkanRev.GetPhysicalDeviceQueueFamilyIndex
    (drv_queueFamilies physicalDevice) VK_QUEUE_GRAPHICS_BIT <> None.
Proof.
  unfold VulkanRev.GetPhysicalDeviceQueueFamilyIndex, has_graphics_family.
  rewrite optional_queue_index_scan_none.
  change (flag_test VK_QUEUE_GRAPHICS_BIT) with graphics_capable.
  destruct (existsb graphics_capable (drv_queueFamilies physicalDevice)) eqn:E.
  - apply existsb_exists in E. split; [intros _ [_ H]; discriminate | intros _; exact E].
  - split; [| intros H; contradiction H; now split].
    intros H. apply existsb_exists in H. congruence.
Qed.

Lemma has_presenting_family_scan (physicalDevice : VkPhysicalDevice)
      (surface : VkSurfaceKHR) :
  Z.of_nat (List.length (drv_queueFamilies physicalDevice)) <= 2 ^ 32 ->
  has_presenting_family physicalDevice surface <->
  VulkanRev.surface_index_scan (drv_surfaceSupport physicalDevice surface)
                               (drv_queueFamilies physicalDevice) 0 None <> None.
Proof.
  intros Hlen. unfold has_presenting_family.
  pose proof (optional_surface_index_scan_none
                (drv_surfaceSupport physicalDevice surface)
                (drv_queueFamilies physicalDevice) 0 ltac:(lia) ltac:(lia)) as H.
  change (uint32 0) with 0 in H. rewrite H. rewrite Z.add_0_l. split.
  - intros (j & Hj & Hsup) Hall. apply Hsup. now apply Hall.
  - intros Hnot.
    destruct (VulkanRev.surface_index_scan
                (drv_surfaceSupport physicalDevice surface)
                (drv_queueFamilies physicalDevice) 0 None) as [v |] eqn:Hscan.
    + clear Hnot H.
      assert (forall queues k,
                 0 <= k -> k + Z.of_nat (List.length queues) <= 2 ^ 32 ->
                 VulkanRev.surface_index_scan
                   (drv_surfaceSupport physicalDevice surface) queues (uint32 k) None
                 = Some v ->
                 k <= v < k + Z.of_nat (List.length queues) /\
                 drv_surfaceSupport physicalDevice surface v <> 0) as Hfound.
      { induction queues as [| q rest IH]; intros k Hk Hl; simpl; [discriminate |].
        simpl List.length in Hl. rewrite Nat2Z.inj_succ in *.
        rewrite uint32_succ_idemp. rewrite (uint32_small k) by lia.
        destruct (Z.eqb_spec (drv_surfaceSupport physicalDevice surface k) 0)
          as [E | N]; simpl.
        - intros Hs. apply IH in Hs; [| lia | lia]. split; [lia | tauto].
        - intros Hs. inversion Hs; subst. split; [lia | exact N]. }
      change 0 with (uint32 0) in Hscan at 1.
      apply Hfound in Hscan; [| lia | lia].
      exists v. split; [lia | tauto].
    + exfalso. apply Hnot. apply H. reflexivity.
Qed.

(** With valid handles and at least one format, the initializer returns
    when the device has a graphics family and a presenting family, and
    leaves through [value()] otherwise. *)
Lemma SwapchainCreateInfo_valid_outcome driver physicalDevice surface window :
  Z.of_nat (List.length (drv_queueFamilies physicalDevice)) <= 2 ^ 32 ->
  handle physicalDevice <> VK_NULL_HANDLE ->
  surface <> VK_NULL_HANDLE ->
  VulkanRev.drv_formats (driver surface) <> [] ->
  (~ (has_graphics_family physicalDevice /\
      has_presenting_family physicalDevice surface) ->
   Init.SwapchainCreateInfo driver physicalDevice surface window
   = Abort "std::bad_optional_access") /\
  (has_graphics_family physicalDevice ->
   has_presenting_family physicalDevice surface ->
   exists info,
     Init.SwapchainCreateInfo driver physicalDevice surface window = Ret info).
Proof.
  intros Hlen Hh Hs Hne. rewrite (SwapchainCreateInfo_run _ _ _ _ Hh Hs).
  pose proof (has_graphics_family_scan physicalDevice) as Hg.
  pose proof (has_presenting_family_scan physicalDevice surface Hlen) as Hp.
  destruct (VulkanRev.drv_formats (driver surface)) as [| f0 fs]; [contradiction |].
  split.
  - intros Hnot.
    destruct (format_scan (f0 :: fs)) as [f |] eqn:Hscan;
      unfold SelectSwapchainSurfaceFormat; rewrite Hscan; cbn [bind];
      (destruct (VulkanRev.GetPhysicalDeviceQueueFamilyIndex _ _) as [g |];
       cbn [VulkanRev.value bind]; [| reflexivity];
       destruct (VulkanRev.surface_index_scan _ _ 0 None) as [p |];
       cbn [VulkanRev.value bind]; [| reflexivity];
       exfalso; apply Hnot; split; [apply Hg | apply Hp]; discriminate).
  - intros Hgf Hpf. apply Hg in Hgf. apply Hp in Hpf.
    destruct (VulkanRev.GetPhysicalDeviceQueueFamilyIndex _ _) as [g |];
      [| contradiction].
    destruct (VulkanRev.surface_index_scan _ _ 0 None) as [p |]; [| contradiction].
    unfold SelectSwapchainSurfaceFormat.
    destruct (format_scan (f0 :: fs)); cbn [VulkanRev.value bind]; eauto.
Qed.

(** X16. How [SwapchainCreateInfo] ends, for a device with at most [2^32]
    queue families. A null device or surface handle fails the handle
    assertion. With valid handles: an empty format list makes the format
    selection read out of bounds; otherwise a device without a graphics
    family, or without a family that presents to the surface, leaves
    through [value()] of an empty optional; in every other case a create
    info is returned. *)
Theorem SwapchainCreateInfo_outcome
        (driver : VulkanRev.SurfaceDriver) (physicalDevice : VkPhysicalDevice)
        (surface : VkSurfaceKHR) (window : SDL_Window) :
  Z.of_nat (List.length (drv_queueFamilies physicalDevice)) <= 2 ^ 32 ->
  let run := Init.SwapchainCreateInfo driver physicalDevice surface window in
  (handle physicalDevice = VK_NULL_HANDLE \/ surface = VK_NULL_HANDLE ->
   run = Abort "Invalid Vulkan handle passed as parameter [ parameter name : %s ]") /\
  (handle physicalDevice <> VK_NULL_HANDLE -> surface <> VK_NULL_HANDLE ->
   (VulkanRev.drv_formats (driver surface) = [] -> run = UndefinedRead) /\
   (VulkanRev.drv_formats (driver surface) <> [] ->
    ~ (has_graphics_family physicalDevice /\
       has_presenting_family physicalDevice surface) ->
    run = Abort "std::bad_optional_access") /\
   (VulkanRev.drv_formats (driver surface) <> [] ->
    has_graphics_family physicalDevice ->
    has_presenting_family physicalDevice surface ->
    exists info, run = Ret info)).
Proof.
  intros Hlen run. subst run.
  split; [apply SwapchainCreateInfo_null_handle |].
  intros Hh Hs. split; [| split].
  - intros Hnil. rewrite (SwapchainCreateInfo_run _ _ _ _ Hh Hs), Hnil. reflexivity.
  - intros Hne.
    apply (SwapchainCreateInfo_valid_outcome driver _ _ window Hlen Hh Hs Hne).
  - intros Hne.
    apply (SwapchainCreateInfo_valid_outcome driver _ _ window Hlen Hh Hs Hne).
Qed.

Lemma SwapchainCreateInfo_outcome_witness :
  exists info,
    Init.SwapchainCreateInfo sample_driver twin_family_device 1 sample_window
    = Ret info.
Proof.
  refine (proj2 (proj2 (proj2 (SwapchainCreateInfo_outcome
                                 sample_driver twin_family_device 1
                                 sample_window _) _ _))
                _ _ _).
  - simpl. lia.
  - vm_compute. discriminate.
  - discriminate.
  - discriminate.
  - exists {| queueFlags := 1 |}. split; [simpl; tauto | reflexivity].
  - exists 0. split; [simpl; lia | discriminate].
Defined.

(** What a returned create info was built from. *)
Lemma SwapchainCreateInfo_returned driver physicalDevice surface window info :
  Init.SwapchainCreateInfo driver physicalDevice surface window = Ret info ->
  handle physicalDevice <> VK_NULL_HANDLE /\
  surface <> VK_NULL_HANDLE /\
  exists surfaceFormat graphics present,
    SelectSwapchainSurfaceFormat (VulkanRev.drv_formats (driver surface))
    = Ret surfaceFormat /\
    VulkanRev.GetPhysicalDeviceQueueFamilyIndex
      (drv_queueFamilies physicalDevice) VK_QUEUE_GRAPHICS_BIT = Some graphics /\
    VulkanRev.surface_index_scan (drv_surfaceSupport physicalDevice surface)
                                 (drv_queueFamilies physicalDevice) 0 None
    = Some present /\
    info = swapchain_info driver surface window surfaceFormat graphics present.
Proof.
  intros Hrun.
  destruct (Z.eq_dec (handle physicalDevice) VK_NULL_HANDLE) as [E | Hh].
  { rewrite SwapchainCreateInfo_null_handle in Hrun by (now left). discriminate. }
  destruct (Z.eq_dec surface VK_NULL_HANDLE) as [E | Hs].
  { rewrite SwapchainCreateInfo_null_handle in Hrun by (now right). discriminate. }
  split; [exact Hh |]. split; [exact Hs |].
  rewrite (SwapchainCreateInfo_run _ _ _ _ Hh Hs) in Hrun.
  destruct (SelectSwapchainSurfaceFormat (VulkanRev.drv_formats (driver surface)))
    as [f | |]; cbn [bind] in Hrun; try discriminate.
  destruct (VulkanRev.GetPhysicalDeviceQueueFamilyIndex _ _) as [g |];
    cbn [VulkanRev.value bind] in Hrun; try discriminate.
  destruct (VulkanRev.surface_index_scan _ _ 0 None) as [p |];
    cbn [VulkanRev.value bind] in Hrun; try discriminate.
  inversion Hrun. exists f, g, p. repeat split.
Qed.

(** X17. The image count of a returned create info: with no maximum
    ([maxImageCount] zero) it is the minimum plus one, reduced modulo
    [2^32]; with a maximum it never exceeds it; it is the minimum plus one
    whenever that does not wrap and stays within the maximum; and it lies
    between the minimum and the maximum when these are ordered. *)
Theorem SwapchainCreateInfo_image_count
        (driver : VulkanRev.SurfaceDriver) (physicalDevice : VkPhysicalDevice)
        (surface : VkSurfaceKHR) (window : SDL_Window)
        (info : Init.VkSwapchainCreateInfoKHR) :
  Init.SwapchainCreateInfo driver physicalDevice surface window = Ret info ->
  let lo := VulkanRev.minImageCount (VulkanRev.drv_imageLimits (driver surface)) in
  let hi := VulkanRev.maxImageCount (VulkanRev.drv_imageLimits (driver surface)) in
  (hi <= 0 -> Init.minImageCount info = uint32 (lo + 1)) /\
  (0 < hi -> Init.minImageCount info <= hi) /\
  (0 <= lo -> lo + 1 < 2 ^ 32 -> hi <= 0 \/ lo < hi ->
   Init.minImageCount info = lo + 1) /\
  (0 <= lo <= hi -> 0 < hi -> lo + 1 < 2 ^ 32 ->
   lo <= Init.minImageCount info <= hi).
Proof.
  intros Hrun lo hi.
  apply SwapchainCreateInfo_returned in Hrun.
  destruct Hrun as (_ & _ & f & g & p & _ & _ & _ & ->).
  cbn [swapchain_info Init.minImageCount]. unfold Init.image_count.
  fold lo. fold hi.
  pose proof (uint32_range (lo + 1)) as Hr.
  assert (0 <= lo -> lo + 1 < 2 ^ 32 -> uint32 (lo + 1) = lo + 1) as Hu
      by (intros; apply uint32_small; lia).
  set (u := uint32 (lo + 1)) in *.
  destruct (Z.ltb_spec 0 hi) as [Hpos | Hnpos];
    destruct (Z.ltb_spec hi u) as [Hlt | Hge]; cbn [andb];
    (split; [| split; [| split]]); intros; lia.
Qed.

Lemma SwapchainCreateInfo_image_count_witness :
  Init.minImageCount twin_info = 2 + 1.
Proof.
  refine (proj1 (proj2 (proj2 (SwapchainCreateInfo_image_count
                                 sample_driver twin_family_device 1 sample_window
                                 twin_info _))) _ _ _).
  - reflexivity.
  - simpl. lia.
  - simpl. lia.
  - right. simpl. lia.
Defined.

(** X18. The sharing mode of a returned create info, for a device with at
    most [2^31] queue families: with [g] the position of the last family
    that does graphics and [p] the position of the first family that
    presents to the surface, the mode is exclusive with an index count of 0
    and a null index pointer when [g = p]; otherwise, also when one family
    does both, it is concurrent with an index count of 2, and the index
    pointer is the address of the array of the call that has returned, not
    the two indices. *)
Theorem SwapchainCreateInfo_sharing_mode
        (driver : VulkanRev.SurfaceDriver) (physicalDevice : VkPhysicalDevice)
        (surface : VkSurfaceKHR) (window : SDL_Window)
        (info : Init.VkSwapchainCreateInfoKHR) :
  Z.of_nat (List.length (drv_queueFamilies physicalDevice)) <= 2 ^ 31 ->
  Init.SwapchainCreateInfo driver physicalDevice surface window = Ret info ->
  exists g p,
    last_index_where
      (fun j => exists q, family_at (drv_queueFamilies physicalDevice) j = Some q /\
                          graphics_capable q = true)
      (Z.of_nat (List.length (drv_queueFamilies physicalDevice))) g /\
    first_index_where
      (fun j => drv_surfaceSupport physicalDevice surface j <> VK_FALSE)
      (Z.of_nat (List.length (drv_queueFamilies physicalDevice))) p /\
    0 <= g /\ 0 <= p /\
    (g = p ->
     Init.imageSharingMode info = Init.VK_SHARING_MODE_EXCLUSIVE /\
     Init.queueFamilyIndexCount info = 0 /\
     Init.pQueueFamilyIndices info = Init.nullptr) /\
    (g <> p ->
     Init.imageSharingMode info = Init.VK_SHARING_MODE_CONCURRENT /\
     Init.queueFamilyIndexCount info = 2 /\
     Init.pQueueFamilyIndices info = Init.queueFamilyIndices_address).
Proof.
  intros Hlen Hrun.
  apply SwapchainCreateInfo_returned in Hrun.
  destruct Hrun as (_ & _ & f & g & p & _ & Hg & Hp & ->).
  exists g, p.
  set (families := drv_queueFamilies physicalDevice) in *.
  set (support := drv_surfaceSupport physicalDevice surface) in *.
  (* the graphics index *)
  unfold VulkanRev.GetPhysicalDeviceQueueFamilyIndex in Hg.
  pose proof (queue_index_scan_agree VK_QUEUE_GRAPHICS_BIT families 0 None (-1)
                                     ltac:(lia) ltac:(lia) (conj eq_refl I))
    as [Hgeq Hgr].
  pose proof (queue_index_scan_last VK_QUEUE_GRAPHICS_BIT families 0 (-1)
                                    ltac:(lia) ltac:(lia)) as Hlast.
  change (uint32 0) with 0 in *. cbv zeta in Hlast.
  rewrite Hg in Hgeq, Hgr. simpl in Hgeq. rewrite Hgeq in Hlast.
  change (flag_test VK_QUEUE_GRAPHICS_BIT) with graphics_capable in Hlast.
  assert (existsb graphics_capable families = true) as Hex.
  { destruct (existsb graphics_capable families) eqn:E; [reflexivity |].
    assert (VulkanRev.queue_index_scan families VK_QUEUE_GRAPHICS_BIT 0 None = None)
      as Hnone by (apply optional_queue_index_scan_none; now split).
    congruence. }
  rewrite Hex in Hlast. destruct Hlast as (Hrange & (q & Hq & Ht) & Hafter).
  rewrite Z.sub_0_r in Hq.
  (* the presentation index *)
  pose proof (surface_index_scan_agree support families 0 None (-1)
                                       ltac:(lia) ltac:(lia) (conj eq_refl I))
    as [Hpeq Hpr].
  pose proof (surface_index_scan_first support families 0 (-1)
                                       ltac:(lia) ltac:(lia)) as [Hnone Hsome].
  change (uint32 0) with 0 in *. rewrite Z.add_0_l in *.
  rewrite Hp in Hpeq, Hpr. simpl in Hpeq. rewrite Hpeq in Hnone, Hsome.
  assert (exists j, 0 <= j < Z.of_nat (List.length families) /\ support j <> 0)
    as Hpres.
  { apply (has_presenting_family_scan physicalDevice surface);
      fold families; [lia |].
    fold support. congruence. }
  destruct (Hsome Hpres) as (Hprange & Hpsup & Hpbefore).
  split.
  { split.
    - intros Hnot. exfalso. apply (Hnot g); [lia | exists q; now split].
    - intros _. split; [lia |]. split; [exists q; now split |].
      intros j Hj (q' & Hq' & Ht').
      rewrite (Hafter j q') in Ht'; [discriminate | lia | exact Hq']. }
  split.
  { split.
    - intros Hnot. exfalso. destruct Hpres as (j & Hj & Hs). now apply (Hnot j).
    - intros _. split; [lia |]. split; [exact Hpsup |].
      intros j Hj Hs. apply Hs. apply Hpbefore. lia. }
  split; [lia |]. split; [lia |].
  cbn [swapchain_info Init.imageSharingMode Init.queueFamilyIndexCount
                      Init.pQueueFamilyIndices].
  split.
  - intros ->. rewrite Z.eqb_refl. repeat split.
  - intros Hne. destruct (Z.eqb_spec g p); [contradiction |]. repeat split.
Qed.

Lemma SwapchainCreateInfo_sharing_mode_witness :
  exists g p,
    last_index_where
      (fun j => exists q, family_at (drv_queueFamilies twin_family_device) j = Some q /\
                          graphics_capable q = true)
      (Z.of_nat (List.length (drv_queueFamilies twin_family_device))) g /\
    first_index_where
      (fun j => drv_surfaceSupport twin_family_device 1 j <> VK_FALSE)
      (Z.of_nat (List.length (drv_queueFamilies twin_family_device))) p /\
    0 <= g /\ 0 <= p /\
    (g = p ->
     Init.imageSharingMode twin_info = Init.VK_SHARING_MODE_EXCLUSIVE /\
     Init.queueFamilyIndexCount twin_info = 0 /\
     Init.pQueueFamilyIndices twin_info = Init.nullptr) /\
    (g <> p ->
     Init.imageSharingMode twin_info = Init.VK_SHARING_MODE_CONCURRENT /\
     Init.queueFamilyIndexCount twin_info = 2 /\
     Init.pQueueFamilyIndices twin_info = Init.queueFamilyIndices_address).
Proof.
  apply (SwapchainCreateInfo_sharing_mode sample_driver twin_family_device 1
                                          sample_window twin_info).
  - simpl. lia.
  - reflexivity.
Defined.

(** Both families of [twin_family_device] do graphics and present; the
    graphics index is 1, the presentation index 0, and the mode is
    concurrent, with the address of the dead array as index pointer. *)
Example SwapchainCreateInfo_twin_families :
  Init.SwapchainCreateInfo sample_driver twin_family_device 1 sample_window
  = Ret twin_info /\
  Init.imageSharingMode twin_info = Init.VK_SHARING_MODE_CONCURRENT /\
  Init.queueFamilyIndexCount twin_info = 2 /\
  Init.pQueueFamilyIndices twin_info = Init.queueFamilyIndices_address.
Proof. repeat split. Qed.

(** X19. A returned create info carries a format and color space pair of
    the driver's format list, the preferred pair when that is listed, the
    mailbox present mode when the driver lists it and FIFO otherwise, and
    the extent chosen by [SelectSwapchainSurfaceImageExtent]. *)
Theorem SwapchainCreateInfo_selection
        (driver : VulkanRev.SurfaceDriver) (physicalDevice : VkPhysicalDevice)
        (surface : VkSurfaceKHR) (window : SDL_Window)
        (info : Init.VkSwapchainCreateInfoKHR) :
  Init.SwapchainCreateInfo driver physicalDevice surface window = Ret info ->
  let details := driver surface in
  In {| format := Init.imageFormat info; colorSpace := Init.imageColorSpace info |}
     (VulkanRev.drv_formats details) /\
  (In preferred_format (VulkanRev.drv_formats details) ->
   Init.imageFormat info = VK_FORMAT_B8G8R8A8_SRGB /\
   Init.imageColorSpace info = VK_COLOR_SPACE_SRGB_NONLINEAR_KHR) /\
  (In VK_PRESENT_MODE_MAILBOX_KHR (VulkanRev.drv_presentModes details) ->
   Init.presentMode info = VK_PRESENT_MODE_MAILBOX_KHR) /\
  (~ In VK_PRESENT_MODE_MAILBOX_KHR (VulkanRev.drv_presentModes details) ->
   Init.presentMode info = VK_PRESENT_MODE_FIFO_KHR) /\
  Init.imageExtent info
  = SelectSwapchainSurfaceImageExtent window (VulkanRev.drv_capabilities details) /\
  Init.surface info = surface.
Proof.
  intros Hrun details. subst details.
  apply SwapchainCreateInfo_returned in Hrun.
  destruct Hrun as (_ & _ & f & g & p & Hf & _ & _ & ->).
  cbn [swapchain_info Init.imageFormat Init.imageColorSpace Init.presentMode
                      Init.imageExtent Init.surface].
  split.
  { replace {| format := format f; colorSpace := colorSpace f |} with f
      by (now destruct f).
    unfold SelectSwapchainSurfaceFormat in Hf.
    destruct (format_scan (VulkanRev.drv_formats (driver surface))) as [f' |] eqn:Hscan.
    - inversion Hf; subst. now apply format_scan_member.
    - destruct (VulkanRev.drv_formats (driver surface)); [discriminate |].
      inversion Hf; subst. now left. }
  split.
  { intros Hpref. unfold SelectSwapchainSurfaceFormat in Hf.
    rewrite (format_scan_found _ Hpref) in Hf. inversion Hf. now split. }
  split; [apply SelectSwapchainSurfacePresentMode_mailbox |].
  split; [apply SelectSwapchainSurfacePresentMode_fifo |].
  split; reflexivity.
Qed.

Lemma SwapchainCreateInfo_selection_witness :
  Init.presentMode twin_info = VK_PRESENT_MODE_MAILBOX_KHR.
Proof.
  refine (proj1 (proj2 (proj2 (SwapchainCreateInfo_selection
                                 sample_driver twin_family_device 1 sample_window
                                 twin_info _))) _).
  - reflexivity.
  - simpl. tauto.
Defined.

(** ** ResultString *)

(** Follow the binary digits of the value down the cases of the [switch]. *)
Ltac walk_result_cases :=
  repeat match goal with
         | |- _ = _ => reflexivity
         | H : existsb _ _ = false |- EnumStringifier.ResultString ?r = _ =>
             match r with
             | context [?p] => is_var p; destruct p
             end
         | H : existsb _ _ = false |- _ =>
             exfalso; vm_compute in H; discriminate H
         end.

Lemma ResultString_default (res : Z) :
  existsb (Z.eqb res) known_results = false ->
  EnumStringifier.ResultString res = unknown_result_string.
Proof. intros H. walk_result_cases. Qed.

Lemma existsb_eqb_In (res : Z) (l : list Z) :
  existsb (Z.eqb res) l = true <-> In res l.
Proof.
  rewrite existsb_exists. split.
  - intros (x & Hin & E). apply Z.eqb_eq in E. now subst.
  - intros Hin. exists res. split; [exact Hin | apply Z.eqb_refl].
Qed.

(** X20. [ResultString] gives the string of its [default] exactly for the
    values without a [case]; two values with a [case] never share a
    string, so that the string tells the value. *)
Theorem ResultString_names :
  (forall res,
      EnumStringifier.ResultString res = unknown_result_string <->
      ~ In res known_results) /\
  (forall a b,
      In a known_results -> In b known_results ->
      EnumStringifier.ResultString a = EnumStringifier.ResultString b -> a = b).
Proof.
  assert (forallb (fun a =>
            negb (String.eqb (EnumStringifier.ResultString a)
                             unknown_result_string)) known_results = true) as Hnamed
      by (vm_compute; reflexivity).
  assert (forallb (fun a =>
            forallb (fun b =>
              implb (String.eqb (EnumStringifier.ResultString a)
                                (EnumStringifier.ResultString b))
                    (a =? b)) known_results) known_results = true) as Hdistinct
      by (vm_compute; reflexivity).
  rewrite forallb_forall in Hnamed, Hdistinct.
  split.
  - intros res. split.
    + intros Hdef Hin. specialize (Hnamed _ Hin).
      rewrite Hdef, String.eqb_refl in Hnamed. discriminate.
    + intros Hnin. apply ResultString_default.
      destruct (existsb (Z.eqb res) known_results) eqn:E; [| reflexivity].
      apply existsb_eqb_In in E. contradiction.
  - intros a b Ha Hb Heq.
    specialize (Hdistinct _ Ha). rewrite forallb_forall in Hdistinct.
    specialize (Hdistinct _ Hb).
    rewrite Heq, String.eqb_refl in Hdistinct. simpl in Hdistinct.
    now apply Z.eqb_eq.
Qed.

Lemma ResultString_names_witness :
  EnumStringifier.ResultString 6 = unknown_result_string.
Proof.
  apply (proj1 ResultString_names 6).
  intros H. simpl in H.
  repeat (destruct H as [H | H]; [discriminate H |]). exact H.
Defined.

(** ** From the selection to the swapchain create info *)

(** X21. For a device returned by [SelectBestPhysicalDevice] for a surface
    and a driver whose format list has the length it counted for the
    rating, [SwapchainCreateInfo] never reads the format list out of bounds
    and fails no handle assertion: it returns a create info when the device
    has a graphics family and a family that presents to the surface, and it
    leaves through [value()] of an empty optional otherwise, which the
    selection does not exclude. *)
Theorem SelectBestPhysicalDevice_then_SwapchainCreateInfo
        (instance : VkInstance) (surface : VkSurfaceKHR) (best : VkPhysicalDevice)
        (driver : VulkanRev.SurfaceDriver) (window : SDL_Window) :
  SelectBestPhysicalDevice instance surface = Ret best ->
  surface <> VK_NULL_HANDLE ->
  drv_formatCount best surface
  = Z.of_nat (List.length (VulkanRev.drv_formats (driver surface))) ->
  Z.of_nat (List.length (drv_queueFamilies best)) <= 2 ^ 32 ->
  (has_graphics_family best /\ has_presenting_family best surface ->
   exists info, Init.SwapchainCreateInfo driver best surface window = Ret info) /\
  (~ (has_graphics_family best /\ has_presenting_family best surface) ->
   Init.SwapchainCreateInfo driver best surface window
   = Abort "std::bad_optional_access").
Proof.
  intros Hsel Hs Hcount Hlen.
  destruct (SelectBestPhysicalDevice_returned _ _ _ Hsel) as (_ & _ & Hh & Hpos).
  apply rated_score_positive in Hpos. destruct Hpos as [_ Hcounts].
  destruct (Hcounts Hs) as [_ Hfmt].
  assert (VulkanRev.drv_formats (driver surface) <> []) as Hne.
  { intros E. rewrite E in Hcount. simpl in Hcount. contradiction. }
  destruct (SwapchainCreateInfo_valid_outcome driver best surface window
                                              Hlen Hh Hs Hne) as [Hfail Hok].
  split; [intros [Hg Hp]; now apply Hok | exact Hfail].
Qed.

Lemma SelectBestPhysicalDevice_then_SwapchainCreateInfo_witness :
  Init.SwapchainCreateInfo sample_driver offscreen_device 1 sample_window
  = Abort "std::bad_optional_access".
Proof.
  refine (proj2 (SelectBestPhysicalDevice_then_SwapchainCreateInfo
                   offscreen_instance 1 offscreen_device sample_driver
                   sample_window _ _ _ _) _).
  - vm_compute. reflexivity.
  - discriminate.
  - reflexivity.
  - simpl. lia.
  - intros [_ (j & _ & Hsup)]. apply Hsup. reflexivity.
Defined.
